(** * R_Motors IVR path model

    A shallow embedding of the IVR path logic of the repository:
    - [webhook_server.py]: [store_ivr_input], [update_ivr_path], [ivr_webhook];
    - [app.py]: [get_ivr_label], [create_ivr_funnel],
      [create_ivr_completion_rate];
    - [ivr_database.py]: [init_database], [get_ivr_paths], [get_ivr_stats],
      [merge_with_call_data];
    - [utils.py]: [format_phone_number], [format_duration].

    SQLite tables are lists of rows in insertion order, Python [str] values
    are [string]s holding their UTF-8 bytes, with lengths and slices counted
    in characters, [None]/SQL [NULL] is [None : option _], and
    [CURRENT_TIMESTAMP] is an explicit clock argument. *)

From Stdlib Require Import String Ascii List ZArith Bool Lia Permutation Sorted.
From Stdlib Require Decimal DecimalString DecimalZ DecimalPos.
Import ListNotations.
Open Scope string_scope.

(** ** Python string and dict primitives used by the sources *)

Module Py.

(** Truthiness of an optional string: [None] and [''] are falsy. *)
Definition truthy (o : option string) : bool :=
  match o with
  | None => false
  | Some s => negb (s =? "")
  end.

(** [x or y]. *)
Definition or_ (x y : option string) : option string :=
  if truthy x then x else y.

(** [s.lstrip(c)], [s.rstrip(c)], [s.strip(c)] for a one-character set. *)
Fixpoint lstrip (c : ascii) (s : string) : string :=
  match s with
  | EmptyString => EmptyString
  | String a s' => if Ascii.eqb a c then lstrip c s' else s
  end.

Fixpoint rstrip (c : ascii) (s : string) : string :=
  match s with
  | EmptyString => EmptyString
  | String a s' =>
      match rstrip c s' with
      | EmptyString => if Ascii.eqb a c then EmptyString else String a EmptyString
      | r => String a r
      end
  end.

Definition strip (c : ascii) (s : string) : string := rstrip c (lstrip c s).

(** [s.split(sep)] for a one-character separator: always at least one part. *)
Fixpoint split (sep : ascii) (s : string) : list string :=
  match s with
  | EmptyString => [EmptyString]
  | String a s' =>
      if Ascii.eqb a sep then EmptyString :: split sep s'
      else match split sep s' with
           | [] => [String a EmptyString]
           | w :: ws => String a w :: ws
           end
  end.

(** [sep.join(l)]. *)
Definition join (sep : string) (l : list string) : string := String.concat sep l.

(** [d.get(k, default)] on a dict literal, and [m.get(k)] on a mapping. *)
Fixpoint lookup {A : Type} (d : list (string * A)) (k : string) : option A :=
  match d with
  | [] => None
  | (k', v) :: d' => if k' =? k then Some v else lookup d' k
  end.

Definition dict_get (d : list (string * string)) (k default : string) : string :=
  match lookup d k with
  | Some v => v
  | None => default
  end.

End Py.

(** ** The characters of a Python string

    A Python [str] is held as its UTF-8 text.  The byte-wise primitives above
    agree with Python's because their separators and quote characters are
    ASCII; counting and slicing go by characters. *)

(** A continuation byte, [10xxxxxx]. *)
Definition is_cont (a : ascii) : bool :=
  match a with
  | Ascii _ _ _ _ _ _ b6 b7 => b7 && negb b6
  end.

(** The number of continuation bytes after a leading byte; [None] for a byte
    that cannot lead a character. *)
Definition following (a : ascii) : option nat :=
  match a with
  | Ascii _ _ _ _ _ _ _ false => Some 0
  | Ascii _ _ _ _ _ false true true => Some 1
  | Ascii _ _ _ _ false true true true => Some 2
  | Ascii _ _ _ false true true true true => Some 3
  | _ => None
  end.

(** The text is a sequence of whole characters. *)
Fixpoint utf8_from (pending : nat) (s : string) : bool :=
  match s with
  | EmptyString => Nat.eqb pending 0
  | String a s' =>
      match pending with
      | S p => is_cont a && utf8_from p s'
      | O => match following a with
             | Some n => utf8_from n s'
             | None => false
             end
      end
  end.

Definition utf8 (s : string) : bool := utf8_from 0 s.

(** [len(s)]: the number of characters. *)
Fixpoint code_points (s : string) : nat :=
  match s with
  | EmptyString => 0
  | String a s' => (if is_cont a then 0 else 1) + code_points s'
  end.

(** The continuation bytes at the front of a text, and what follows them. *)
Fixpoint take_cont (s : string) : string :=
  match s with
  | EmptyString => EmptyString
  | String a s' => if is_cont a then String a (take_cont s') else EmptyString
  end.

Fixpoint skip_cont (s : string) : string :=
  match s with
  | EmptyString => EmptyString
  | String a s' => if is_cont a then skip_cont s' else s
  end.

(** The text does not begin inside a character. *)
Definition whole_start (s : string) : bool :=
  match s with
  | EmptyString => true
  | String a _ => negb (is_cont a)
  end.

(** The slices [s[:n]] and [s[n:]], cut between characters. *)
Fixpoint py_upto (n : nat) (s : string) : string :=
  match n, s with
  | S n', String a s' => String a (take_cont s' ++ py_upto n' (skip_cont s'))
  | _, _ => EmptyString
  end.

Fixpoint py_from (n : nat) (s : string) : string :=
  match n, s with
  | S n', String _ s' => py_from n' (skip_cont s')
  | _, _ => s
  end.

(** ** The two tables of [init_database] *)

(** A row of [ivr_inputs], the raw step-event log. *)
Record input_row := mk_input {
  in_id : Z;
  in_call_sid : string;
  in_from_number : option string;
  in_to_number : option string;
  in_step_name : string;
  in_digit_input : option string;
  in_timestamp : Z;
  in_exophone : option string;
  in_caller_circle : option string
}.

(** A row of [ivr_paths], one per call. *)
Record path_row := mk_path {
  id : Z;
  call_sid : string;
  from_number : option string;
  to_number : option string;
  language_choice : option string;
  state_choice : option string;
  service_choice : option string;
  model_choice : option string;
  hp_choice : option string;
  complete_path : option string;
  timestamp : Z
}.

Record database := mk_db {
  ivr_inputs : list input_row;
  ivr_paths : list path_row
}.

(** [IVRDatabase.init_database] of [ivr_database.py] on a fresh file: both
    tables exist and are empty.  This is the store the handlers of
    [webhook_server.py] work on: its own [init_database] declares the same
    columns, but writes [INDEX] clauses inside the first [CREATE TABLE], which
    SQLite refuses, so it creates no table. *)
Definition init_database : database := mk_db [] [].

(** ** SQL primitives *)

Module Sql.

(** [COALESCE(x, '')]. *)
Definition coalesce (x : option string) : string :=
  match x with
  | Some s => s
  | None => ""
  end.

(** [UPDATE t SET ... WHERE p]: every row that satisfies [p] is rewritten. *)
Definition update {R : Type} (p : R -> bool) (f : R -> R) (t : list R) : list R :=
  map (fun r => if p r then f r else r) t.

(** [SELECT * FROM t WHERE p] followed by [fetchone()]. *)
Definition fetchone {R : Type} (p : R -> bool) (t : list R) : option R := find p t.

(** [INTEGER PRIMARY KEY AUTOINCREMENT]: one more than the largest key
    (no row is ever deleted by the program). *)
Definition next_id {R : Type} (key : R -> Z) (t : list R) : Z :=
  1 + fold_right (fun r m => Z.max (key r) m) 0%Z t.

End Sql.

(** ** webhook_server.py *)

(** The two characters stripped by the cleaning: the double quote (code 34)
    and the single quote (code 39). *)
Definition dquote : ascii := "034"%char.
Definition squote : ascii := "039"%char.

(** The cleaning shared by [store_ivr_input] and [update_ivr_path]: when
    [digit_input] is truthy, strip double quotes, then strip single quotes. *)
Definition clean (digit_input : option string) : option string :=
  if Py.truthy digit_input then
    match digit_input with
    | Some s => Some (Py.strip squote (Py.strip dquote s))
    | None => None
    end
  else digit_input.

Definition store_ivr_input (now : Z) (sid step_name : string)
    (digit_input from_ to_ exophone caller_circle : option string)
    (db : database) : database :=
  let digit_input := clean digit_input in
  mk_db (ivr_inputs db ++
           [mk_input (Sql.next_id in_id (ivr_inputs db)) sid from_ to_
                     step_name digit_input now exophone caller_circle])%list
        (ivr_paths db).

Definition has_sid (sid : string) (r : path_row) : bool := call_sid r =? sid.

Definition set_language (v : option string) (r : path_row) : path_row :=
  mk_path (id r) (call_sid r) (from_number r) (to_number r)
          v (state_choice r) (service_choice r) (model_choice r) (hp_choice r)
          (complete_path r) (timestamp r).

Definition set_state (v : option string) (r : path_row) : path_row :=
  mk_path (id r) (call_sid r) (from_number r) (to_number r)
          (language_choice r) v (service_choice r) (model_choice r) (hp_choice r)
          (complete_path r) (timestamp r).

Definition set_service (v : option string) (r : path_row) : path_row :=
  mk_path (id r) (call_sid r) (from_number r) (to_number r)
          (language_choice r) (state_choice r) v (model_choice r) (hp_choice r)
          (complete_path r) (timestamp r).

Definition set_model (v : option string) (r : path_row) : path_row :=
  mk_path (id r) (call_sid r) (from_number r) (to_number r)
          (language_choice r) (state_choice r) (service_choice r) v (hp_choice r)
          (complete_path r) (timestamp r).

Definition set_hp (v : option string) (r : path_row) : path_row :=
  mk_path (id r) (call_sid r) (from_number r) (to_number r)
          (language_choice r) (state_choice r) (service_choice r) (model_choice r) v
          (complete_path r) (timestamp r).

(** The right-hand side of the final [UPDATE]: the five choices, each through
    [COALESCE(_, '')], concatenated with ['-']. *)
Definition path_expr (r : path_row) : string :=
  Sql.coalesce (language_choice r) ++ "-" ++
  Sql.coalesce (state_choice r) ++ "-" ++
  Sql.coalesce (service_choice r) ++ "-" ++
  Sql.coalesce (model_choice r) ++ "-" ++
  Sql.coalesce (hp_choice r).

Definition set_complete_path (r : path_row) : path_row :=
  mk_path (id r) (call_sid r) (from_number r) (to_number r)
          (language_choice r) (state_choice r) (service_choice r)
          (model_choice r) (hp_choice r)
          (Some (path_expr r)) (timestamp r).

(** The [if]/[elif] chain of the update branch; no [else]. *)
Definition set_step (step_name : string) (v : option string) (r : path_row) : path_row :=
  if step_name =? "language" then set_language v r
  else if step_name =? "state" then set_state v r
  else if step_name =? "service" then set_service v r
  else if step_name =? "model" then set_model v r
  else if step_name =? "hp" then set_hp v r
  else r.

(** The row of the [INSERT]: [complete_path] is not listed (so [NULL]) and
    [timestamp] takes its default. *)
Definition new_row (now : Z) (t : list path_row) (sid step_name : string)
    (digit_input from_ to_ : option string) : path_row :=
  mk_path (Sql.next_id id t) sid from_ to_
          (if step_name =? "language" then digit_input else None)
          (if step_name =? "state" then digit_input else None)
          (if step_name =? "service" then digit_input else None)
          (if step_name =? "model" then digit_input else None)
          (if step_name =? "hp" then digit_input else None)
          None now.

(** [update_ivr_path] on the [ivr_paths] table. *)
Definition update_paths (now : Z) (sid step_name : string)
    (digit_input from_ to_ : option string) (t : list path_row) : list path_row :=
  let digit_input := clean digit_input in
  let t' :=
    match Sql.fetchone (has_sid sid) t with
    | Some _ => Sql.update (has_sid sid) (set_step step_name digit_input) t
    | None => (t ++ [new_row now t sid step_name digit_input from_ to_])%list
    end in
  Sql.update (has_sid sid) set_complete_path t'.

Definition update_ivr_path (now : Z) (sid step_name : string)
    (digit_input from_ to_ : option string) (db : database) : database :=
  mk_db (ivr_inputs db) (update_paths now sid step_name digit_input from_ to_ (ivr_paths db)).

(** The Flask request: query parameters and form fields. *)
Record request := mk_request {
  args : list (string * string);
  form : list (string * string)
}.

Definition param (req : request) (k : string) : option string :=
  Py.or_ (Py.lookup (args req) k) (Py.lookup (form req) k).

(** The JSON body and status code returned by [ivr_webhook]. *)
Inductive response :=
| Error (error : string) (status : Z)
| Success (message sid : string) (digit : option string) (status : Z).

(** [ivr_webhook(step_name)]; [t1] and [t2] are the clock readings of the two
    statements that insert a row. *)
Definition ivr_webhook (t1 t2 : Z) (step_name : string) (req : request)
    (db : database) : database * response :=
  let sid := param req "CallSid" in
  let digit_input := param req "digits" in
  let from_ := param req "From" in
  let to_ := param req "To" in
  let exophone := param req "To" in
  let caller_circle := param req "CallerCircle" in
  match sid with
  | Some s =>
      if Py.truthy sid then
        let db1 := store_ivr_input t1 s step_name digit_input from_ to_
                                   exophone caller_circle db in
        let db2 := update_ivr_path t2 s step_name digit_input from_ to_ db1 in
        (db2, Success ("IVR input recorded for " ++ step_name) s digit_input 200)
      else (db, Error "CallSid is required" 400)
  | None => (db, Error "CallSid is required" 400)
  end.

(** ** app.py: the path decoder *)

(** The [labels] list of [get_ivr_label] for the already split path. *)
Definition get_ivr_tokens (parts : list string) : list string :=
  let part := fun i => nth i parts "" in
  let labels := @nil string in
  (* Step 1: Language *)
  let labels :=
    if (1 <=? length parts)%nat then
      (labels ++ [Py.dict_get [("1", "Hindi"); ("2", "English")]
                             (part 0) ("Lang-" ++ part 0)])%list
    else labels in
  (* Step 2: State *)
  let labels :=
    if (2 <=? length parts)%nat then
      (labels ++ [Py.dict_get [("1", "Rajasthan"); ("2", "MP");
                              ("3", "Maharashtra"); ("4", "Other State")]
                             (part 1) ("State-" ++ part 1)])%list
    else labels in
  (* Step 3: Service *)
  let labels :=
    if (3 <=? length parts)%nat then
      (labels ++ [Py.dict_get [("1", "Sell Machine"); ("2", "Buy Old");
                              ("3", "Buy New"); ("4", "Finance");
                              ("5", "Other Info"); ("9", "Consultant")]
                             (part 2) ("Service-" ++ part 2)])%list
    else labels in
  (* Step 4: Additional details based on service *)
  let labels :=
    if (4 <=? length parts)%nat then
      if part 2 =? "2" then
        (labels ++ [Py.dict_get [("1", "2020+"); ("2", "2018-2020");
                                ("3", "2015-2017"); ("4", "Before 2014")]
                               (part 3) ("Model-" ++ part 3)])%list
      else if part 2 =? "1" then
        (labels ++ [Py.dict_get [("1", "Before 2014"); ("2", "2015-2017");
                                ("3", "2018-2020"); ("4", "2020+")]
                               (part 3) ("Model-" ++ part 3)])%list
      else if part 2 =? "4" then
        (labels ++ [Py.dict_get [("1", "Refinance"); ("2", "New Finance")]
                               (part 3) ("Finance-" ++ part 3)])%list
      else labels
    else labels in
  (* Step 5: HP selection for 2020+ old machines *)
  let labels :=
    if (5 <=? length parts)%nat && (part 2 =? "2") && (part 3 =? "1") then
      (labels ++ [Py.dict_get [("1", "49 HP"); ("2", "74 HP")]
                             (part 4) ("HP-" ++ part 4)])%list
    else labels in
  labels.

Definition get_ivr_label (path : option string) : string :=
  match path with
  | Some s =>
      if Py.truthy path then Py.join " → " (get_ivr_tokens (Py.split "-" s))
      else "No IVR"
  | None => "No IVR"
  end.

(** ** ivr_database.py: the call/path merge *)

(** A DataFrame cell.  [Null] stands for both [None] and [NaN], which
    [pd.notna] does not tell apart. *)
#[local] Unset Elimination Schemes.
Inductive cell :=
| Null
| Str (s : string)
| Num (n : Z)
| Lst (l : list cell).
#[local] Set Elimination Schemes.

(** A DataFrame row carries its column labels, in column order.  The rows
    read from a table, whose columns are fixed, are a plain list. *)
Definition row := list (string * cell).
Definition frame := list row.

(** A DataFrame in general: its column labels, which it has even without
    rows, and its rows in index order. *)
Record dataframe := mk_frame {
  columns : list string;
  rows : list row
}.

(** Every row holds one cell per column, under the labels of the frame. *)
Definition well_formed (df : dataframe) : Prop :=
  Forall (fun r => map fst r = columns df) (rows df).

Module Pd.

Definition of_text (o : option string) : cell :=
  match o with
  | Some s => Str s
  | None => Null
  end.

(** [pd.notna(x)]. *)
Definition notna (c : cell) : bool :=
  match c with
  | Null => false
  | _ => true
  end.

(** [row[k]]: [None] is the [KeyError]. *)
Definition get (r : row) (k : string) : option cell := Py.lookup r k.

(** [row.get(k)]: a missing label gives [None]. *)
Definition row_get (r : row) (k : string) : cell :=
  match get r k with
  | Some c => c
  | None => Null
  end.

Definition has_col (r : row) (k : string) : bool := existsb (String.eqb k) (map fst r).

(** [df[k] = v]: overwrite column [k] in place, or add it as the last column. *)
Fixpoint set_col (k : string) (v : cell) (r : row) : row :=
  match r with
  | [] => [(k, v)]
  | (k', v') :: r' => if k' =? k then (k, v) :: r' else (k', v') :: set_col k v r'
  end.

(** [df.drop(columns=ks, errors='ignore')]. *)
Definition drop (ks : list string) (r : row) : row :=
  filter (fun kv => negb (existsb (String.eqb (fst kv)) ks)) r.

(** [df[[k1, ..., kn]]] on a frame that has all these columns. *)
Definition select (ks : list string) (r : row) : row :=
  map (fun k => (k, row_get r k)) ks.

(** Equality of two join keys of object columns: texts are compared, and a
    null or a number never equals a text. *)
Definition key_eqb (a b : cell) : bool :=
  match a, b with
  | Str x, Str y => x =? y
  | Num x, Num y => Z.eqb x y
  | _, _ => false
  end.

Definition is_num (c : cell) : bool :=
  match c with
  | Num _ => true
  | _ => false
  end.

Definition is_lst (c : cell) : bool :=
  match c with
  | Lst _ => true
  | _ => false
  end.

(** The dtype that pandas infers for a column of these values is numeric:
    int64 when all are numbers, float64 when some are missing.  A column with
    a text or a list in it, or with nulls only, is an object column. *)
Definition numeric_dtype (cells : list cell) : bool :=
  existsb is_num cells && forallb (fun c => is_num c || negb (notna c)) cells.

(** The suffixes [_x] and [_y] that [merge] gives to a label present on
    both sides. *)
Definition suffix_labels (sfx : string) (others labels : list string) : list string :=
  map (fun k => if existsb (String.eqb k) others then k ++ sfx else k) labels.

Definition suffixed (sfx : string) (others : list string) (r : row) : row :=
  map (fun kv => (if existsb (String.eqb (fst kv)) others
                  then fst kv ++ sfx else fst kv, snd kv)) r.

(** One left row of [left.merge(right, left_on=lk, right_on=rk, how='left')]:
    one output row per partner, in the right frame's order, or one row
    padded with nulls when there is none.  [lcols] and [rcols] are the
    columns of the two frames. *)
Definition merge_row (lcols rcols : list string) (right : frame) (lk rk : string)
    (l : row) : list row :=
  let key := row_get l lk in
  let l' := suffixed "_x" rcols l in
  match filter (fun r => key_eqb key (row_get r rk)) right with
  | [] => [(l' ++ suffixed "_y" lcols (map (fun k => (k, Null)) rcols))%list]
  | partners => map (fun r => (l' ++ suffixed "_y" lcols r)%list) partners
  end.

(** Run a fallible step over every row, failing if one of them fails. *)
Fixpoint traverse {A B : Type} (f : A -> option B) (l : list A) : option (list B) :=
  match l with
  | [] => Some []
  | a :: l' =>
      match f a, traverse f l' with
      | Some b, Some bs => Some (b :: bs)
      | _, _ => None
      end
  end.

Definition has_column (df : dataframe) (k : string) : bool :=
  existsb (String.eqb k) (columns df).

(** [left.merge(right, left_on=lk, right_on=rk, how='left')] with a right
    frame of columns [rcols] whose key column holds text.  [None] is the
    exception pandas raises: [KeyError] when the left frame has no column
    [lk], [TypeError] when a left key is a list (unhashable), [ValueError]
    when the left key column is numeric and both frames have rows. *)
Definition merge_left (left : dataframe) (rcols : list string) (right : frame)
    (lk rk : string) : option dataframe :=
  if negb (has_column left lk) then None
  else
    let keys := map (fun r => row_get r lk) (rows left) in
    if existsb is_lst keys then None
    else if numeric_dtype keys && negb (length right =? 0)%nat then None
    else
      Some (mk_frame
              (suffix_labels "_x" rcols (columns left)
               ++ suffix_labels "_y" (columns left) rcols)%list
              (concat (map (merge_row (columns left) rcols right lk rk) (rows left)))).

(** [df[k] = ...]: column [k] is overwritten in place, or added as the last
    column; [f] gives the new cell of each row. *)
Definition add_label (k : string) (labels : list string) : list string :=
  if existsb (String.eqb k) labels then labels else (labels ++ [k])%list.

Definition assign (k : string) (f : row -> cell) (df : dataframe) : dataframe :=
  mk_frame (add_label k (columns df)) (map (fun r => set_col k (f r) r) (rows df)).

(** [df.drop(columns=ks, errors='ignore')] on a frame. *)
Definition drop_columns (ks : list string) (df : dataframe) : dataframe :=
  mk_frame (filter (fun k => negb (existsb (String.eqb k) ks)) (columns df))
           (map (drop ks) (rows df)).

End Pd.

(** [ORDER BY timestamp DESC]. *)
Fixpoint insert_desc (r : path_row) (l : list path_row) : list path_row :=
  match l with
  | [] => [r]
  | x :: l' => if (timestamp x <=? timestamp r)%Z then r :: l else x :: insert_desc r l'
  end.

Definition order_by_timestamp_desc (t : list path_row) : list path_row :=
  fold_right insert_desc [] t.

(** A row of [SELECT * FROM ivr_paths] as read by [pd.read_sql_query]. *)
Definition to_row (p : path_row) : row :=
  [("id", Num (id p));
   ("call_sid", Str (call_sid p));
   ("from_number", Pd.of_text (from_number p));
   ("to_number", Pd.of_text (to_number p));
   ("language_choice", Pd.of_text (language_choice p));
   ("state_choice", Pd.of_text (state_choice p));
   ("service_choice", Pd.of_text (service_choice p));
   ("model_choice", Pd.of_text (model_choice p));
   ("hp_choice", Pd.of_text (hp_choice p));
   ("complete_path", Pd.of_text (complete_path p));
   ("timestamp", Num (timestamp p))].

(** [get_ivr_paths()] as [merge_with_call_data] calls it, with neither date
    bound. *)
Definition get_ivr_paths (db : database) : frame :=
  map to_row (order_by_timestamp_desc (ivr_paths db)).

(** The columns of [ivr_df] that enter the merge, and that are dropped after. *)
Definition ivr_columns : list string :=
  ["call_sid"; "complete_path"; "language_choice"; "state_choice";
   "service_choice"; "model_choice"; "hp_choice"].

(** The [lambda row: ...] that computes [IVRSelections]. *)
Definition selections (r : row) : cell :=
  if Pd.notna (Pd.row_get r "complete_path") then
    Lst (filter Pd.notna
           [Pd.row_get r "language_choice"; Pd.row_get r "state_choice";
            Pd.row_get r "service_choice"; Pd.row_get r "model_choice";
            Pd.row_get r "hp_choice"])
  else Null.

(** [merge_with_call_data]; [None] is an exception raised by pandas: those
    of the merge, or the [KeyError] of [merged_df['complete_path']]. *)
Definition merge_with_call_data (db : database) (call_df : dataframe)
    : option dataframe :=
  let ivr_df := get_ivr_paths db in
  match ivr_df with
  | [] =>
      let call_df := Pd.assign "IVRPath" (fun _ => Null) call_df in
      let call_df := Pd.assign "IVRSelections" (fun _ => Null) call_df in
      Some call_df
  | _ =>
      match Pd.merge_left call_df ivr_columns (map (Pd.select ivr_columns) ivr_df)
                          "CallSid" "call_sid" with
      | None => None
      | Some merged_df =>
          if negb (Pd.has_column merged_df "complete_path") then None
          else
            let merged_df :=
              Pd.assign "IVRPath" (fun r => Pd.row_get r "complete_path") merged_df in
            let merged_df := Pd.assign "IVRSelections" selections merged_df in
            Some (Pd.drop_columns ivr_columns merged_df)
      end
  end.

(** ** Step events and runs of the path store *)

(** One call of [update_ivr_path], the store's upsert, with its clock reading. *)
Record step_event := mk_event {
  ev_now : Z;
  ev_sid : string;
  ev_step : string;
  ev_digit : option string;
  ev_from : option string;
  ev_to : option string
}.

Definition upsert_step (db : database) (e : step_event) : database :=
  update_ivr_path (ev_now e) (ev_sid e) (ev_step e) (ev_digit e) (ev_from e) (ev_to e) db.

Definition run (evs : list step_event) (db : database) : database :=
  fold_left upsert_step evs db.

(** The five steps, in path position order. *)
Definition steps : list string := ["language"; "state"; "service"; "model"; "hp"].

Definition is_step (s : string) : bool := existsb (String.eqb s) steps.

Definition choices (r : path_row) : list (option string) :=
  [language_choice r; state_choice r; service_choice r; model_choice r; hp_choice r].

(** The choice column that a step name addresses. *)
Definition choice (step_name : string) (r : path_row) : option string :=
  if step_name =? "language" then language_choice r
  else if step_name =? "state" then state_choice r
  else if step_name =? "service" then service_choice r
  else if step_name =? "model" then model_choice r
  else if step_name =? "hp" then hp_choice r
  else None.

(** The join of five optional choices with ['-'], an unset choice rendered
    as the empty segment. *)
Definition join_choices (cs : list (option string)) : string :=
  Py.join "-" (map Sql.coalesce cs).

Definition path_ok (r : path_row) : Prop :=
  complete_path r = Some (join_choices (choices r)).

(** The record of a call, as [SELECT ... WHERE call_sid = ?] finds it. *)
Definition get (sid : string) (db : database) : option path_row :=
  Sql.fetchone (has_sid sid) (ivr_paths db).



(** The choice stored for a call at a step; unset when there is no record. *)
Definition stored (step_name sid : string) (db : database) : option string :=
  match get sid db with
  | Some r => choice step_name r
  | None => None
  end.

(** Spec-side reading of the decoder's stopping rule: the number of leading
    segments that are not empty. *)
Fixpoint leading_nonempty (parts : list string) : nat :=
  match parts with
  | [] => 0
  | p :: ps => if p =? "" then 0 else S (leading_nonempty ps)
  end.

(** The number of tokens [get_ivr_label] produces, read off its five guards. *)
Definition token_count (parts : list string) : nat :=
  let service := nth 2 parts "" in
  let model := nth 3 parts "" in
  Nat.min 3 (length parts)
  + (if (4 <=? length parts)%nat
        && ((service =? "2") || (service =? "1") || (service =? "4"))
     then 1 else 0)
  + (if (5 <=? length parts)%nat && (service =? "2") && (model =? "1")
     then 1 else 0).

(** The path record that a call row joins with: the one whose [call_sid] is
    the row's [CallSid]. *)
Definition partner (db : database) (r : row) : option path_row :=
  match Pd.get r "CallSid" with
  | Some (Str sid) => get sid db
  | _ => None
  end.

(** The choices of a record that are set, in step order. *)
Definition set_choices (p : path_row) : list cell :=
  filter Pd.notna (map Pd.of_text (choices p)).

(** Spec-side reading of the selections: the choice values that are set and
    are not the empty string, in step order. *)
Definition nonempty_choices (p : path_row) : list cell :=
  filter (fun c => match c with Str s => negb (s =? "") | _ => false end)
         (map Pd.of_text (choices p)).

(** The two derived cells of a call row. *)
Definition ivr_path_of (db : database) (r : row) : cell :=
  match partner db r with
  | Some p => Pd.of_text (complete_path p)
  | None => Null
  end.

Definition ivr_selections_of (db : database) (r : row) : cell :=
  match partner db r with
  | Some p =>
      match complete_path p with
      | Some _ => Lst (set_choices p)
      | None => Null
      end
  | None => Null
  end.

(** A call row that the merge handles without renaming: it has the [CallSid]
    column and none of its labels is a label of the path columns. *)
Definition call_columns_ok (r : row) : bool :=
  Pd.has_col r "CallSid"
  && forallb (fun k => negb (existsb (String.eqb k) ivr_columns)) (map fst r).

(** The same condition on the labels of a frame. *)
Definition labels_ok (labels : list string) : bool :=
  existsb (String.eqb "CallSid") labels
  && forallb (fun k => negb (existsb (String.eqb k) ivr_columns)) labels.

(** The call identifier of the row is a text. *)
Definition text_key (r : row) : bool :=
  match Pd.row_get r "CallSid" with
  | Str _ => true
  | _ => false
  end.

(** The frame the merge is meant for: one cell per column in every row, a
    [CallSid] column of texts, and no column named like a path column. *)
Definition call_frame_ok (df : dataframe) : Prop :=
  well_formed df /\ labels_ok (columns df) = true /\
  Forall (fun r => text_key r = true) (rows df).

(** The path columns that the left join puts next to a call row: those of
    its partner, or nulls. *)
Definition joined_columns (db : database) (r : row) : row :=
  map (fun k => (k, match partner db r with
                    | Some p => Pd.row_get (to_row p) k
                    | None => Null
                    end)) ivr_columns.

(** The call row with its two derived columns set. *)
Definition with_ivr_columns (db : database) (r : row) : row :=
  Pd.set_col "IVRSelections" (ivr_selections_of db r)
             (Pd.set_col "IVRPath" (ivr_path_of db r) r).

(** The row that one call of [update_ivr_path] leaves for an existing record. *)
Definition touched (step_name : string) (v : option string) (r : path_row) : path_row :=
  set_complete_path (set_step step_name v r).

(** ** Requests served in sequence *)

(** One request to [/webhook/ivr/<step_name>] with its two clock readings. *)
Record hit := mk_hit {
  hit_t1 : Z;
  hit_t2 : Z;
  hit_step : string;
  hit_req : request
}.

Definition serve (db : database) (h : hit) : database :=
  fst (ivr_webhook (hit_t1 h) (hit_t2 h) (hit_step h) (hit_req h) db).

Definition serve_all (hs : list hit) (db : database) : database :=
  fold_left serve hs db.

(** The request carries a call identifier, so it passes [if not call_sid]. *)
Definition accepted (h : hit) : bool := Py.truthy (param (hit_req h) "CallSid").

Definition hit_sid (h : hit) : string := Sql.coalesce (param (hit_req h) "CallSid").

(** [SELECT COUNT(DISTINCT call_sid) FROM ivr_inputs], the first query of
    [get_ivr_stats]. *)
Definition total_calls (db : database) : nat :=
  length (nodup string_dec (map in_call_sid (ivr_inputs db))).

(** The invariants of the two tables: consecutive primary keys, unique
    [call_sid] in [ivr_paths], and the same call identifiers in both. *)
Definition tables_ok (db : database) : Prop :=
  map in_id (ivr_inputs db) = map Z.of_nat (seq 1 (length (ivr_inputs db))) /\
  map id (ivr_paths db) = map Z.of_nat (seq 1 (length (ivr_paths db))) /\
  NoDup (map call_sid (ivr_paths db)) /\
  (forall sid, In sid (map in_call_sid (ivr_inputs db)) <->
               In sid (map call_sid (ivr_paths db))).

(** The string has no occurrence of the character. *)
Fixpoint no_char (c : ascii) (s : string) : bool :=
  match s with
  | EmptyString => true
  | String a s' => negb (Ascii.eqb a c) && no_char c s'
  end.





(** ** [get_ivr_paths] with its date bounds *)

Section DateBounds.

(** SQLite's [DATE(timestamp)]: the day of a clock reading, as text. *)
Variable DATE : Z -> string.

(** The [WHERE] clause that [get_ivr_paths] builds: a bound takes part only
    when it is truthy, and is compared as text. *)
Definition in_bounds (start_date end_date : option string) (p : path_row) : bool :=
  (if Py.truthy start_date
   then (Sql.coalesce start_date <=? DATE (timestamp p))%string else true)
  && (if Py.truthy end_date
      then (DATE (timestamp p) <=? Sql.coalesce end_date)%string else true).

(** [get_ivr_paths(start_date, end_date)] of [ivr_database.py]. *)
Definition get_ivr_paths_between (start_date end_date : option string)
    (db : database) : frame :=
  map to_row
      (order_by_timestamp_desc (filter (in_bounds start_date end_date) (ivr_paths db))).

End DateBounds.

(** Newest first. *)
Definition newer (a b : path_row) : Prop := (timestamp b <= timestamp a)%Z.

(** ** app.py: the funnel and completion charts *)

(** The data of a plotly figure: the empty figure with its note, a funnel
    trace, or a bar trace; colours and sizes are left out. *)
Inductive figure :=
| Annotation (text : string)
| Funnel (title : string) (y : list string) (x : list nat)
| Bar (title : string) (x : list string) (y : list nat).

(** [len(x)]: the items of a list, the characters of a text; [None] is the
    [TypeError] of a value without length. *)
Definition py_len (c : cell) : option nat :=
  match c with
  | Lst l => Some (length l)
  | Str s => Some (code_points s)
  | Null => None
  | Num _ => None
  end.

(** [df[df[k].notna()]] and [df[df[k].isna()]]; [None] is the [KeyError] of a
    frame without column [k]. *)
Definition where_notna (k : string) (df : dataframe) : option dataframe :=
  if Pd.has_column df k
  then Some (mk_frame (columns df)
                      (filter (fun r => Pd.notna (Pd.row_get r k)) (rows df)))
  else None.

Definition where_isna (k : string) (df : dataframe) : option dataframe :=
  if Pd.has_column df k
  then Some (mk_frame (columns df)
                      (filter (fun r => negb (Pd.notna (Pd.row_get r k))) (rows df)))
  else None.

(** [len(data[data[k].apply(lambda x: test(len(x)))])]. *)
Definition count_where_len (k : string) (test : nat -> bool) (data : dataframe)
    : option nat :=
  if Pd.has_column data k then
    match Pd.traverse (fun r => option_map test (py_len (Pd.row_get r k)))
                      (rows data) with
    | Some mask => Some (length (filter (fun b : bool => b) mask))
    | None => None
    end
  else None.

Definition no_ivr_data : figure := Annotation "No IVR data available".

Definition create_ivr_funnel (df : dataframe) : option figure :=
  match where_notna "IVRSelections" df with
  | None => None
  | Some ivr_data =>
      if (length (rows ivr_data) =? 0)%nat then Some no_ivr_data
      else
        let total_calls := length (rows ivr_data) in
        match count_where_len "IVRSelections" (fun n => 1 <=? n)%nat ivr_data,
              count_where_len "IVRSelections" (fun n => 2 <=? n)%nat ivr_data,
              count_where_len "IVRSelections" (fun n => 3 <=? n)%nat ivr_data with
        | Some level_1, Some level_2, Some level_3 =>
            Some (Funnel "IVR Navigation Funnel"
                         ["Entered IVR"; "Level 1 Selection";
                          "Level 2 Selection"; "Level 3 Selection"]
                         [total_calls; level_1; level_2; level_3])
        | _, _, _ => None
        end
  end.

Definition create_ivr_completion_rate (df : dataframe) : option figure :=
  match where_notna "IVRSelections" df, where_isna "IVRSelections" df with
  | Some ivr_data, Some no_ivr_rows =>
      let no_ivr := length (rows no_ivr_rows) in
      if (length (rows ivr_data) =? 0)%nat then Some no_ivr_data
      else
        match count_where_len "IVRSelections" (fun n => 2 <=? n)%nat ivr_data,
              count_where_len "IVRSelections" (fun n => n <? 2)%nat ivr_data with
        | Some completed, Some dropped =>
            Some (Bar "IVR Completion Analysis"
                      ["Completed IVR"; "Dropped Early"; "No IVR Interaction"]
                      [completed; dropped; no_ivr])
        | _, _ => None
        end
  | _, _ => None
  end.

(** The row has an [IVRSelections] cell that is null, a list or a string. *)
Definition selections_ok (r : row) : bool :=
  match Pd.get r "IVRSelections" with
  | Some (Num _) => false
  | Some _ => true
  | None => false
  end.

Definition has_selections (r : row) : bool :=
  Pd.notna (Pd.row_get r "IVRSelections").

(** The number of selections of a row that has some. *)
Definition selection_count (r : row) : nat :=
  match py_len (Pd.row_get r "IVRSelections") with
  | Some n => n
  | None => 0
  end.

(** The rows with selections that reach a level. *)
Definition reached (level : nat) (df : frame) : nat :=
  length (filter (fun r => (level <=? selection_count r)%nat)
                 (filter has_selections df)).

(** The number of choices that the record of a call has set, if it has one. *)
Definition set_count (db : database) (r : row) : option nat :=
  option_map (fun p => length (set_choices p)) (partner db r).

Definition calls_at_least (db : database) (n : nat) (call_df : frame) : nat :=
  length (filter (fun r => match set_count db r with
                           | Some k => (n <=? k)%nat
                           | None => false
                           end) call_df).

Definition calls_without_record (db : database) (call_df : frame) : nat :=
  length (filter (fun r => match partner db r with
                           | Some _ => false
                           | None => true
                           end) call_df).

(** What a path record holds besides its key and its creation time. *)
Definition record_content (r : path_row)
    : string * option string * option string * list (option string) * option string :=
  (call_sid r, from_number r, to_number r, choices r, complete_path r).

(** ** utils.py *)

Definition format_phone_number (number : string) : string :=
  if String.prefix "+91" number then
    let num := py_from 3 number in
    "+91 " ++ py_upto 5 num ++ " " ++ py_from 5 num
  else number.

(** [str(n)], the decimal text of an integer as an f-string prints it. *)
Definition str (n : Z) : string :=
  DecimalString.NilZero.string_of_int (Z.to_int n).

Definition format_duration (seconds : Z) : string :=
  if (seconds <? 60)%Z then str seconds ++ "s"
  else if (seconds <? 3600)%Z then
    let minutes := (seconds / 60)%Z in
    let secs := (seconds mod 60)%Z in
    str minutes ++ "m " ++ str secs ++ "s"
  else
    let hours := (seconds / 3600)%Z in
    let minutes := ((seconds mod 3600) / 60)%Z in
    str hours ++ "h " ++ str minutes ++ "m".

(** * Properties *)

(** ** The primitives on concrete inputs *)

Example clean_quoted : clean (Some (String dquote ("1" ++ String dquote ""))) = Some "1".
Proof. reflexivity. Qed.

Example clean_absent : clean None = None /\ clean (Some "") = Some "".
Proof. split; reflexivity. Qed.

Example split_partial : Py.split "-" "1--3--" = ["1"; ""; "3"; ""; ""].
Proof. reflexivity. Qed.

Example label_unknown_service : get_ivr_label (Some "1-1-7") = "Hindi → Rajasthan → Service-7".
Proof. reflexivity. Qed.

Example label_with_hp :
  get_ivr_label (Some "1-2-2-1-2") = "Hindi → MP → Buy Old → 2020+ → 74 HP".
Proof. reflexivity. Qed.

Lemma split_not_nil sep s : Py.split sep s <> [].
Proof.
  destruct s as [|a s]; simpl; [discriminate|].
  destruct (Ascii.eqb a sep); [discriminate|].
  destruct (Py.split sep s); discriminate.
Qed.

(** Joining the segments of a path with the separator gives the path back. *)
Lemma join_split sep s : Py.join (String sep "") (Py.split sep s) = s.
Proof.
  unfold Py.join. induction s as [|a s IH]; [reflexivity|].
  simpl. destruct (Ascii.eqb_spec a sep) as [E|E].
  - subst a. simpl.
    destruct (Py.split sep s) eqn:Es; [now apply split_not_nil in Es|].
    now rewrite IH.
  - destruct (Py.split sep s) as [|w ws] eqn:Es; [now apply split_not_nil in Es|].
    simpl in *. destruct ws; simpl in *; now rewrite <- IH.
Qed.

Example characters_not_bytes :
  code_points "é" = 1 /\ String.length "é" = 2 /\
  py_upto 1 "éa" = "é" /\ py_from 1 "éa" = "a".
Proof. repeat split. Qed.

(** ** The path store *)

Lemma path_expr_join (r : path_row) : path_expr r = join_choices (choices r).
Proof. reflexivity. Qed.

Lemma call_sid_set_step step v r : call_sid (set_step step v r) = call_sid r.
Proof.
  unfold set_step.
  repeat match goal with |- context [if ?b then _ else _] => destruct b end;
    reflexivity.
Qed.

Lemma has_sid_set_step sid step v r :
  has_sid sid (set_step step v r) = has_sid sid r.
Proof. unfold has_sid. now rewrite call_sid_set_step. Qed.

Lemma has_sid_set_complete_path sid r :
  has_sid sid (set_complete_path r) = has_sid sid r.
Proof. reflexivity. Qed.

Lemma update_none {R : Type} (p : R -> bool) (f : R -> R) (t : list R) :
  find p t = None -> Sql.update p f t = t.
Proof.
  unfold Sql.update.
  induction t as [|x t IH]; simpl; intros H; [reflexivity|].
  destruct (p x); [discriminate|]. now rewrite IH.
Qed.

Lemma update_update {R : Type} (p : R -> bool) (f g : R -> R) (t : list R) :
  (forall r, p (f r) = p r) ->
  Sql.update p g (Sql.update p f t) = Sql.update p (fun r => g (f r)) t.
Proof.
  intros Hp. unfold Sql.update. rewrite map_map.
  apply map_ext. intros r.
  destruct (p r) eqn:E; [now rewrite Hp, E | now rewrite E].
Qed.

Lemma update_ext {R : Type} (p : R -> bool) (f g : R -> R) (t : list R) :
  (forall r, p r = true -> f r = g r) -> Sql.update p f t = Sql.update p g t.
Proof.
  intros H. unfold Sql.update. apply map_ext. intros r.
  destruct (p r) eqn:E; [now apply H | reflexivity].
Qed.

Lemma update_app {R : Type} (p : R -> bool) (f : R -> R) (t u : list R) :
  Sql.update p f (t ++ u) = (Sql.update p f t ++ Sql.update p f u)%list.
Proof. apply map_app. Qed.

Lemma has_sid_new_row now t sid step v f g :
  has_sid sid (new_row now t sid step v f g) = true.
Proof. unfold has_sid. simpl. apply String.eqb_refl. Qed.

(** The update branch: the record exists. *)
Lemma update_paths_existing now sid step d f g t r :
  Sql.fetchone (has_sid sid) t = Some r ->
  update_paths now sid step d f g t = Sql.update (has_sid sid) (touched step (clean d)) t.
Proof.
  intros H. unfold update_paths. rewrite H.
  exact (update_update (has_sid sid) (set_step step (clean d)) set_complete_path t
                       (has_sid_set_step sid step (clean d))).
Qed.

(** The create branch: the record is absent. *)
Lemma update_paths_absent now sid step d f g t :
  Sql.fetchone (has_sid sid) t = None ->
  update_paths now sid step d f g t =
  (t ++ [set_complete_path (new_row now t sid step (clean d) f g)])%list.
Proof.
  intros H. unfold update_paths. rewrite H.
  rewrite update_app, (update_none _ _ _ H). simpl.
  now rewrite has_sid_new_row.
Qed.

Lemma path_ok_set_complete_path r : path_ok (set_complete_path r).
Proof. reflexivity. Qed.

Lemma path_ok_touched step v r : path_ok (touched step v r).
Proof. apply path_ok_set_complete_path. Qed.

Lemma update_paths_path_ok now sid step d f g t :
  Forall path_ok t -> Forall path_ok (update_paths now sid step d f g t).
Proof.
  intros H.
  destruct (Sql.fetchone (has_sid sid) t) as [r|] eqn:E.
  - rewrite (update_paths_existing _ _ _ _ _ _ _ _ E).
    unfold Sql.update. apply Forall_map.
    eapply Forall_impl; [|exact H]. intros a Ha.
    destruct (has_sid sid a); [apply path_ok_touched | exact Ha].
  - rewrite (update_paths_absent _ _ _ _ _ _ _ E).
    apply Forall_app. split; [exact H|].
    constructor; [apply path_ok_set_complete_path | constructor].
Qed.



Lemma run_path_ok evs db :
  Forall path_ok (ivr_paths db) -> Forall path_ok (ivr_paths (run evs db)).
Proof.
  revert db. induction evs as [|e evs IH]; intros db H; [exact H|].
  simpl. apply IH. apply update_paths_path_ok, H.
Qed.

Lemma find_app_last {R : Type} (p : R -> bool) (t : list R) (x : R) :
  find p t = None -> p x = true -> find p (t ++ [x]) = Some x.
Proof.
  intros H Hx. induction t as [|y t IH]; simpl in *.
  - now rewrite Hx.
  - destruct (p y); [discriminate | now apply IH].
Qed.

Lemma find_update {R : Type} (p : R -> bool) (f : R -> R) (t : list R) :
  (forall r, p (f r) = p r) ->
  find p (Sql.update p f t) = option_map f (find p t).
Proof.
  intros Hp. unfold Sql.update.
  induction t as [|y t IH]; simpl; [reflexivity|].
  destruct (p y) eqn:E.
  - now rewrite Hp, E.
  - now rewrite E.
Qed.

Lemma has_sid_touched sid step v r : has_sid sid (touched step v r) = has_sid sid r.
Proof. unfold touched. now rewrite has_sid_set_complete_path, has_sid_set_step. Qed.

(** What [get] finds after one call: the touched old record, or the new one. *)
Lemma fetchone_update_paths now sid step d f g t :
  Sql.fetchone (has_sid sid) (update_paths now sid step d f g t) =
  Some match Sql.fetchone (has_sid sid) t with
       | Some r => touched step (clean d) r
       | None => set_complete_path (new_row now t sid step (clean d) f g)
       end.
Proof.
  destruct (Sql.fetchone (has_sid sid) t) as [r|] eqn:E.
  - rewrite (update_paths_existing _ _ _ _ _ _ _ _ E).
    unfold Sql.fetchone in *.
    rewrite find_update by (intros; apply has_sid_touched).
    now rewrite E.
  - rewrite (update_paths_absent _ _ _ _ _ _ _ E).
    unfold Sql.fetchone in *.
    apply find_app_last; [exact E|].
    rewrite has_sid_set_complete_path. apply has_sid_new_row.
Qed.
Lemma find_none_in {R : Type} (p : R -> bool) (t : list R) (x : R) :
  find p t = None -> In x t -> p x = false.
Proof. intros H Hx. exact (find_none p t H x Hx). Qed.

(** C1: after every call of [update_ivr_path], on the create branch as on the
    update branch, the record of the call exists and its stored
    [complete_path] is the join with ['-'] of its five choices (language,
    state, service, model, hp), an unset choice giving an empty segment; and
    after any sequence of calls from the empty store every record satisfies
    this. *)
Theorem complete_path_is_join :
  (forall now sid step d f g db,
      let db' := update_ivr_path now sid step d f g db in
      (exists r, get sid db' = Some r) /\
      (forall r, In r (ivr_paths db') -> call_sid r = sid ->
                 complete_path r = Some (join_choices (choices r)))) /\
  (forall evs r, In r (ivr_paths (run evs init_database)) ->
                 complete_path r = Some (join_choices (choices r))).
Proof.
  split.
  - intros now sid step d f g db db'. split.
    + eexists. unfold get, db'. simpl. apply fetchone_update_paths.
    + unfold db'. simpl. intros r Hin Hsid.
      destruct (Sql.fetchone (has_sid sid) (ivr_paths db)) as [r0|] eqn:E.
      * rewrite (update_paths_existing _ _ _ _ _ _ _ _ E) in Hin.
        unfold Sql.update in Hin. apply in_map_iff in Hin.
        destruct Hin as [a [Ha _]].
        destruct (has_sid sid a) eqn:Ea.
        -- subst r. apply path_ok_touched.
        -- subst a. unfold has_sid in Ea. rewrite Hsid, String.eqb_refl in Ea.
           discriminate.
      * rewrite (update_paths_absent _ _ _ _ _ _ _ E) in Hin.
        apply in_app_or in Hin. destruct Hin as [Hin | [Hin | []]].
        -- pose proof (find_none_in _ _ _ E Hin) as Hn.
           unfold has_sid in Hn. rewrite Hsid, String.eqb_refl in Hn. discriminate.
        -- subst r. apply path_ok_set_complete_path.
  - intros evs r Hin.
    assert (H : Forall path_ok (ivr_paths (run evs init_database)))
      by (apply run_path_ok; constructor).
    rewrite Forall_forall in H. exact (H r Hin).
Qed.

Lemma complete_path_is_join_witness :
  let db := run [mk_event 1 "CA1" "language" (Some "2") None None;
                 mk_event 2 "CA1" "model" (Some "4") None None] init_database in
  exists r, In r (ivr_paths db) /\ complete_path r = Some "2---4-".
Proof.
  intros db. eexists. split; [left; reflexivity|].
  refine (proj2 complete_path_is_join
            [mk_event 1 "CA1" "language" (Some "2") None None;
             mk_event 2 "CA1" "model" (Some "4") None None] _ _).
  left. reflexivity.
Defined.

Ltac step_cases :=
  repeat match goal with
         | |- context [if ?s =? ?k then _ else _] => destruct (s =? k) eqn:?
         end.

Lemma touched_idem step v r : touched step v (touched step v r) = touched step v r.
Proof. unfold touched, set_step. step_cases; reflexivity. Qed.

Lemma touched_new_row now t sid step v f g :
  touched step v (set_complete_path (new_row now t sid step v f g)) =
  set_complete_path (new_row now t sid step v f g).
Proof.
  unfold touched, set_step, new_row.
  destruct (step =? "language"); [reflexivity|].
  destruct (step =? "state"); [reflexivity|].
  destruct (step =? "service"); [reflexivity|].
  destruct (step =? "model"); [reflexivity|].
  destruct (step =? "hp"); reflexivity.
Qed.

(** C7: applying the same step event a second time leaves the store, and so
    the path record with all its choices and its [complete_path], as it was
    after the first application. *)
Theorem upsert_step_idempotent :
  forall db e, upsert_step (upsert_step db e) e = upsert_step db e.
Proof.
  intros db [now sid step d f g]. unfold upsert_step, update_ivr_path. simpl.
  f_equal. set (t := ivr_paths db).
  pose proof (fetchone_update_paths now sid step d f g t) as Hf.
  rewrite (update_paths_existing _ _ _ _ _ _ _ _ Hf).
  destruct (Sql.fetchone (has_sid sid) t) as [r|] eqn:E.
  - rewrite (update_paths_existing _ _ _ _ _ _ _ _ E).
    rewrite update_update by (intros; apply has_sid_touched).
    apply update_ext. intros; apply touched_idem.
  - rewrite (update_paths_absent _ _ _ _ _ _ _ E).
    rewrite update_app, (update_none _ _ _ E). simpl.
    rewrite has_sid_set_complete_path, has_sid_new_row.
    now rewrite touched_new_row.
Qed.

Lemma timestamp_touched step v r : timestamp (touched step v r) = timestamp r.
Proof. unfold touched, set_step. step_cases; reflexivity. Qed.

(** C9 (amended): the record's [timestamp] column is written on the create
    branch only, where it takes the clock reading of the insertion; on the
    update branch no row's [timestamp] changes, so it keeps the creation
    time. *)
Theorem timestamp_is_creation_time :
  forall now sid step d f g db,
    map timestamp (ivr_paths (update_ivr_path now sid step d f g db)) =
    match get sid db with
    | Some _ => map timestamp (ivr_paths db)
    | None => (map timestamp (ivr_paths db) ++ [now])%list
    end.
Proof.
  intros now sid step d f g db. unfold get. simpl.
  destruct (Sql.fetchone (has_sid sid) (ivr_paths db)) as [r|] eqn:E.
  - rewrite (update_paths_existing _ _ _ _ _ _ _ _ E).
    unfold Sql.update. rewrite map_map. apply map_ext. intros a.
    destruct (has_sid sid a); [apply timestamp_touched | reflexivity].
  - rewrite (update_paths_absent _ _ _ _ _ _ _ E).
    now rewrite map_app.
Qed.

(** C9, as stated, fails: a record created at clock 10 and updated at clock 20
    still carries 10. *)
Lemma timestamp_not_updated :
  let db := update_ivr_path 20 "CA1" "state" (Some "2") None None
              (update_ivr_path 10 "CA1" "language" (Some "1") None None init_database) in
  option_map timestamp (get "CA1" db) = Some 10%Z /\
  option_map timestamp (get "CA1" db) <> Some 20%Z.
Proof. split; [reflexivity | discriminate]. Qed.

Lemma not_step_tests step :
  is_step step = false ->
  (step =? "language") = false /\ (step =? "state") = false /\
  (step =? "service") = false /\ (step =? "model") = false /\
  (step =? "hp") = false.
Proof.
  unfold is_step, steps. simpl. intros H.
  repeat (apply orb_false_iff in H; destruct H as [? H]).
  repeat split; assumption.
Qed.

Lemma set_step_unknown step v r : is_step step = false -> set_step step v r = r.
Proof.
  intros H. destruct (not_step_tests step H) as (H1 & H2 & H3 & H4 & H5).
  unfold set_step. now rewrite H1, H2, H3, H4, H5.
Qed.

Lemma set_complete_path_ok r : path_ok r -> set_complete_path r = r.
Proof.
  unfold path_ok. intros H. destruct r. unfold set_complete_path. simpl in *.
  rewrite H at 2. reflexivity.
Qed.

(** C5 (amended): an event whose step name is none of the five steps is not
    rejected.  With a call identifier present the webhook answers success,
    appends one row to the raw event log, and, in the path table, creates the
    record with every choice unset (path ["----"]) when it is absent, or
    recomputes the path of the existing record, whose choices stay as they
    were; if the stored paths were already the join of their choices the
    path table is left exactly as it was. *)
Theorem unknown_step_is_recorded :
  forall t1 t2 step req db s,
    is_step step = false ->
    param req "CallSid" = Some s -> s <> "" ->
    ivr_webhook t1 t2 step req db =
      (mk_db (ivr_inputs db ++
                [mk_input (Sql.next_id in_id (ivr_inputs db)) s
                          (param req "From") (param req "To") step
                          (clean (param req "digits")) t1
                          (param req "To") (param req "CallerCircle")])%list
             match get s db with
             | Some _ => Sql.update (has_sid s) set_complete_path (ivr_paths db)
             | None =>
                 (ivr_paths db ++
                    [mk_path (Sql.next_id id (ivr_paths db)) s
                             (param req "From") (param req "To")
                             None None None None None (Some "----") t2])%list
             end,
       Success ("IVR input recorded for " ++ step) s (param req "digits") 200) /\
    (Forall path_ok (ivr_paths db) -> get s db <> None ->
     ivr_paths (fst (ivr_webhook t1 t2 step req db)) = ivr_paths db).
Proof.
  intros t1 t2 step req db s Hstep Hsid Hne.
  assert (Htr : Py.truthy (Some s) = true).
  { simpl. destruct (s =? "") eqn:E; [|reflexivity].
    apply String.eqb_eq in E. contradiction. }
  assert (Heq : ivr_paths (fst (ivr_webhook t1 t2 step req db)) =
                match get s db with
                | Some _ => Sql.update (has_sid s) set_complete_path (ivr_paths db)
                | None =>
                    (ivr_paths db ++
                       [mk_path (Sql.next_id id (ivr_paths db)) s
                                (param req "From") (param req "To")
                                None None None None None (Some "----") t2])%list
                end).
  { unfold ivr_webhook. rewrite Hsid, Htr. simpl. unfold get.
    destruct (Sql.fetchone (has_sid s) (ivr_paths db)) as [r|] eqn:E.
    - rewrite (update_paths_existing _ _ _ _ _ _ _ _ E).
      apply update_ext. intros a _. unfold touched.
      now rewrite set_step_unknown.
    - rewrite (update_paths_absent _ _ _ _ _ _ _ E).
      destruct (not_step_tests step Hstep) as (H1 & H2 & H3 & H4 & H5).
      unfold new_row. now rewrite H1, H2, H3, H4, H5. }
  split.
  - rewrite <- Heq. unfold ivr_webhook. rewrite Hsid, Htr. reflexivity.
  - intros Hok Hget. rewrite Heq.
    destruct (get s db); [|contradiction].
    unfold Sql.update. rewrite <- (map_id (ivr_paths db)) at 2.
    apply map_ext_in. intros a Ha.
    destruct (has_sid s a); [|reflexivity].
    apply set_complete_path_ok. rewrite Forall_forall in Hok. now apply Hok.
Qed.

Lemma unknown_step_is_recorded_witness :
  exists db', ivr_webhook 1 2 "menu" (mk_request [("CallSid", "CA1")] []) init_database
              = (db', Success "IVR input recorded for menu" "CA1" None 200).
Proof.
  eexists.
  refine (proj1 (unknown_step_is_recorded 1 2 "menu"
                   (mk_request [("CallSid", "CA1")] []) init_database "CA1" _ _ _));
    [reflexivity | reflexivity | discriminate].
Defined.

(** C5, as stated, fails: the step name [menu] is accepted with status 200 and
    both tables gain a row. *)
Lemma unknown_step_not_rejected :
  let out := ivr_webhook 1 2 "menu" (mk_request [("CallSid", "CA1")] []) init_database in
  is_step "menu" = false /\
  snd out = Success "IVR input recorded for menu" "CA1" None 200 /\
  length (ivr_inputs (fst out)) = 1 /\
  length (ivr_paths (fst out)) = 1 /\
  fst out <> init_database.
Proof. repeat split; discriminate. Qed.

(** C6: a request without a call identifier ([CallSid] missing from the query
    and from the form, or empty) is answered with the error
    [CallSid is required] and status 400, and the store is returned as it
    was. *)
Theorem missing_call_sid_rejected :
  forall t1 t2 step req db,
    Py.truthy (param req "CallSid") = false ->
    ivr_webhook t1 t2 step req db = (db, Error "CallSid is required" 400).
Proof.
  intros t1 t2 step req db H. unfold ivr_webhook.
  destruct (param req "CallSid") as [s|]; [|reflexivity].
  now rewrite H.
Qed.

Lemma missing_call_sid_rejected_witness :
  let req := mk_request [("digits", "1"); ("From", "0123")] [("To", "0456")] in
  let db := update_ivr_path 10 "CA1" "language" (Some "1") None None init_database in
  param req "CallSid" = None /\
  ivr_webhook 11 12 "state" req db = (db, Error "CallSid is required" 400).
Proof.
  split; [reflexivity|].
  apply (missing_call_sid_rejected 11 12 "state"). reflexivity.
Defined.

(** ** Digits without quotes *)

Lemma lstrip_id c s : no_char c s = true -> Py.lstrip c s = s.
Proof.
  destruct s as [|a s]; simpl; [reflexivity|].
  intros H. apply andb_true_iff in H. destruct H as [H _].
  apply negb_true_iff in H. now rewrite H.
Qed.

Lemma rstrip_id c s : no_char c s = true -> Py.rstrip c s = s.
Proof.
  induction s as [|a s IH]; simpl; [reflexivity|].
  intros H. apply andb_true_iff in H. destruct H as [Ha Hs].
  apply negb_true_iff in Ha. rewrite (IH Hs), Ha.
  destruct s; reflexivity.
Qed.

Lemma rstrip_snoc c s : no_char c s = true -> Py.rstrip c (s ++ String c "") = s.
Proof.
  induction s as [|a s IH]; simpl.
  - intros _. now rewrite Ascii.eqb_refl.
  - intros H. apply andb_true_iff in H. destruct H as [Ha Hs].
    apply negb_true_iff in Ha. rewrite (IH Hs), Ha.
    destruct s; reflexivity.
Qed.

Lemma strip_wrapped c s :
  no_char c s = true -> Py.strip c (String c (s ++ String c "")) = s.
Proof.
  intros H. unfold Py.strip. simpl. rewrite Ascii.eqb_refl.
  destruct s as [|a s]; simpl.
  - now rewrite Ascii.eqb_refl.
  - pose proof H as H'. simpl in H'. apply andb_true_iff in H'. destruct H' as [Ha _].
    apply negb_true_iff in Ha. rewrite Ha.
    exact (rstrip_snoc c (String a s) H).
Qed.

Lemma strip_id c s : no_char c s = true -> Py.strip c s = s.
Proof. intros H. unfold Py.strip. now rewrite lstrip_id, rstrip_id. Qed.

Lemma no_char_app c s s' : no_char c (s ++ s') = no_char c s && no_char c s'.
Proof.
  induction s as [|a s IH]; simpl; [reflexivity|].
  now rewrite IH, andb_assoc.
Qed.

(** ** Order of arrival *)

Lemma is_step_cases step :
  is_step step = true ->
  step = "language" \/ step = "state" \/ step = "service" \/ step = "model" \/ step = "hp".
Proof.
  unfold is_step, steps. simpl. intros H.
  repeat (apply orb_true_iff in H; destruct H as [H|H];
          [apply String.eqb_eq in H; tauto|]).
  discriminate.
Qed.

Ltac step_spec :=
  repeat match goal with
         | |- context [if ?x =? ?k then _ else _] =>
             destruct (String.eqb_spec x k); subst
         end.

Lemma choice_touched step s v r :
  is_step step = true ->
  choice step (touched s v r) = if s =? step then v else choice step r.
Proof.
  intros H. apply is_step_cases in H.
  unfold touched, set_step.
  destruct H as [H|[H|[H|[H|H]]]]; subst step; unfold choice;
    step_spec; try reflexivity; try discriminate; try congruence.
Qed.

Lemma choice_new_row now t sid step s v f g :
  is_step step = true ->
  choice step (set_complete_path (new_row now t sid s v f g)) =
  if s =? step then v else None.
Proof.
  intros H. apply is_step_cases in H.
  destruct H as [H|[H|[H|[H|H]]]]; subst step; unfold choice, new_row; simpl;
    step_spec; try reflexivity; try discriminate; try congruence.
Qed.

Lemma get_upsert_step db e :
  get (ev_sid e) (upsert_step db e) =
  Some match get (ev_sid e) db with
       | Some r => touched (ev_step e) (clean (ev_digit e)) r
       | None => set_complete_path
                   (new_row (ev_now e) (ivr_paths db) (ev_sid e) (ev_step e)
                            (clean (ev_digit e)) (ev_from e) (ev_to e))
       end.
Proof. unfold get, upsert_step. simpl. apply fetchone_update_paths. Qed.

Lemma stored_upsert_step step db e :
  is_step step = true ->
  stored step (ev_sid e) (upsert_step db e) =
  if ev_step e =? step then clean (ev_digit e) else stored step (ev_sid e) db.
Proof.
  intros H. unfold stored. rewrite get_upsert_step.
  destruct (get (ev_sid e) db).
  - now apply choice_touched.
  - now apply choice_new_row.
Qed.



Lemma find_key_absent {R : Type} (key : R -> string) (k : string) (l : list R) :
  ~ In k (map key l) -> find (fun x => key x =? k) l = None.
Proof.
  induction l as [|x l IH]; simpl; intros H; [reflexivity|].
  destruct (String.eqb_spec (key x) k) as [E|E]; [tauto|].
  apply IH. tauto.
Qed.

(** Looking a row up by a key without duplicates does not depend on the
    order of the rows. *)
Lemma find_key_perm {R : Type} (key : R -> string) (k : string) (l l' : list R) :
  Permutation l l' -> NoDup (map key l) ->
  find (fun x => key x =? k) l = find (fun x => key x =? k) l'.
Proof.
  induction 1 as [|x l l' _ IH|x y l|l l' l'' H1 IH1 H2 IH2]; intros Hnd.
  - reflexivity.
  - simpl. inversion Hnd; subst. now rewrite IH.
  - simpl in *. inversion Hnd as [|? ? Hy _]; subst.
    destruct (String.eqb_spec (key x) k) as [Ex|Ex];
      destruct (String.eqb_spec (key y) k) as [Ey|Ey]; try reflexivity.
    exfalso. apply Hy. left. congruence.
  - rewrite IH1 by assumption. apply IH2.
    eapply Permutation_NoDup; [|exact Hnd]. now apply Permutation_map.
Qed.









(** ** The path decoder *)

(** C3 (amended): a record with language, state and service all ["1"] and
    model and hp unset stores the path ["1-1-1--"]; the decoder turns that
    stored path into the label with a fourth token, [Model-], for the empty
    model segment, and gives [Hindi → Rajasthan → Sell Machine] for the three
    set choices joined without the empty segments. *)
Theorem sell_machine_round_trip :
  forall r,
    path_ok r ->
    choices r = [Some "1"; Some "1"; Some "1"; None; None] ->
    complete_path r = Some "1-1-1--" /\
    get_ivr_label (complete_path r) = "Hindi → Rajasthan → Sell Machine → Model-" /\
    get_ivr_label (Some (Py.join "-" ["1"; "1"; "1"])) = "Hindi → Rajasthan → Sell Machine".
Proof.
  intros r Hok Hch. unfold path_ok in Hok. rewrite Hch in Hok.
  rewrite Hok. repeat split.
Qed.

Lemma sell_machine_round_trip_witness :
  let db := run [mk_event 1 "CA1" "language" (Some "1") None None;
                 mk_event 2 "CA1" "state" (Some "1") None None;
                 mk_event 3 "CA1" "service" (Some "1") None None] init_database in
  exists r, get "CA1" db = Some r /\ complete_path r = Some "1-1-1--".
Proof.
  intros db. eexists. split; [reflexivity|].
  refine (proj1 (sell_machine_round_trip _ _ _)); reflexivity.
Defined.

(** C3, as stated, fails: the stored path ["1-1-1--"] does not decode to
    [Hindi → Rajasthan → Sell Machine]. *)
Lemma stored_path_label_has_model_token :
  let db := run [mk_event 1 "CA1" "language" (Some "1") None None;
                 mk_event 2 "CA1" "state" (Some "1") None None;
                 mk_event 3 "CA1" "service" (Some "1") None None] init_database in
  option_map choices (get "CA1" db) = Some [Some "1"; Some "1"; Some "1"; None; None] /\
  option_map complete_path (get "CA1" db) = Some (Some "1-1-1--") /\
  get_ivr_label (Some "1-1-1--") <> "Hindi → Rajasthan → Sell Machine".
Proof. repeat split. discriminate. Qed.

(** C4 (amended): decoding stops only where the path has no further segment.
    A path of [n] segments gives one token for each of its first [min 3 n]
    segments, empty or not (an empty one is rendered by the fallback
    [Lang-], [State-] or [Service-]), a token for position 3 exactly when
    [n >= 4] and the service segment is ["2"], ["1"] or ["4"], and a token for
    position 4 exactly when [n >= 5], the service is ["2"] and the model is
    ["1"]; the empty path gives [No IVR], and no path is an error. *)
Theorem decode_stops_at_absent_segment :
  (forall parts, length (get_ivr_tokens parts) = token_count parts) /\
  (forall parts i,
      i < 3 -> i < length parts -> nth i parts "" = "" ->
      nth i (get_ivr_tokens parts) "" = nth i ["Lang-"; "State-"; "Service-"] "") /\
  (forall s, get_ivr_label (Some s) =
             if s =? "" then "No IVR"
             else Py.join " → " (get_ivr_tokens (Py.split "-" s))) /\
  get_ivr_label None = "No IVR".
Proof.
  split; [|split; [|split]].
  - intros parts. unfold get_ivr_tokens, token_count.
    destruct parts as [|a [|b [|c [|d [|e rest]]]]]; try reflexivity;
      cbn [length Nat.leb Nat.min nth andb];
      destruct (c =? "2"), (c =? "1"), (c =? "4"); try reflexivity;
      destruct (d =? "1"); reflexivity.
  - intros parts i Hi Hlen Hnth. unfold get_ivr_tokens.
    destruct parts as [|a [|b [|c [|d [|e rest]]]]]; simpl in Hlen;
      destruct i as [|[|[|i]]]; try lia; simpl in Hnth; subst;
      cbn [length Nat.leb nth andb];
      repeat match goal with
             | |- context [String.eqb ?x ?k] => destruct (String.eqb x k)
             end;
      reflexivity.
  - intros s. unfold get_ivr_label, Py.truthy.
    destruct (s =? ""); reflexivity.
  - reflexivity.
Qed.

Lemma decode_stops_at_absent_segment_witness :
  nth 1 (get_ivr_tokens (Py.split "-" "1--3")) "" = "State-".
Proof.
  refine (proj1 (proj2 decode_stops_at_absent_segment) (Py.split "-" "1--3") 1 _ _ _).
  - lia.
  - simpl. lia.
  - reflexivity.
Defined.

(** C4, as stated, fails: with language and model set and state unset the
    path ["1---1-"] has one leading non-empty segment and decodes to three
    tokens. *)
Lemma decode_does_not_stop_at_empty_segment :
  let r := set_complete_path
             (mk_path 1 "CA1" None None (Some "1") None None (Some "1") None None 0) in
  complete_path r = Some "1---1-" /\
  leading_nonempty (Py.split "-" "1---1-") = 1 /\
  get_ivr_tokens (Py.split "-" "1---1-") = ["Hindi"; "State-"; "Service-"] /\
  get_ivr_label (complete_path r) = "Hindi → State- → Service-" /\
  length (get_ivr_tokens (Py.split "-" "1---1-")) <>
  leading_nonempty (Py.split "-" "1---1-").
Proof. repeat split. discriminate. Qed.

(** ** The call/path merge *)

Section Rows.

Variable ks : list string.

Lemma lookup_app_absent {A : Type} (r x : list (string * A)) k :
  Py.lookup r k = None -> Py.lookup (r ++ x)%list k = Py.lookup x k.
Proof.
  induction r as [|[k' v] r IH]; simpl; [reflexivity|].
  destruct (k' =? k); [discriminate | exact IH].
Qed.

Lemma lookup_set_col_other k0 v (r : row) k :
  k <> k0 -> Py.lookup (Pd.set_col k0 v r) k = Py.lookup r k.
Proof.
  intros Hk. induction r as [|[k' v'] r IH]; simpl.
  - destruct (String.eqb_spec k0 k); [congruence | reflexivity].
  - destruct (String.eqb_spec k' k0) as [E|E]; simpl.
    + subst k'. destruct (String.eqb_spec k0 k); [congruence | reflexivity].
    + destruct (k' =? k); [reflexivity | exact IH].
Qed.

Lemma lookup_set_col_same k0 v (r : row) : Py.lookup (Pd.set_col k0 v r) k0 = Some v.
Proof.
  induction r as [|[k' v'] r IH]; simpl.
  - now rewrite String.eqb_refl.
  - destruct (String.eqb_spec k' k0) as [E|E]; simpl.
    + now rewrite String.eqb_refl.
    + destruct (String.eqb_spec k' k0); [contradiction | exact IH].
Qed.

Lemma lookup_absent {A : Type} (r : list (string * A)) k :
  existsb (String.eqb k) (map fst r) = false -> Py.lookup r k = None.
Proof.
  induction r as [|[k' v] r IH]; simpl; [reflexivity|].
  intros H. apply orb_false_iff in H. destruct H as [H1 H2].
  rewrite String.eqb_sym, H1. now apply IH.
Qed.

Lemma drop_set_col k v (r : row) :
  existsb (String.eqb k) ks = false ->
  Pd.drop ks (Pd.set_col k v r) = Pd.set_col k v (Pd.drop ks r).
Proof.
  intros Hk. unfold Pd.drop.
  induction r as [|[k' v'] r IH]; simpl.
  - now rewrite Hk.
  - destruct (String.eqb_spec k' k) as [E|E]; simpl.
    + subst k'. rewrite Hk. simpl. now rewrite String.eqb_refl.
    + destruct (existsb (String.eqb k') ks); simpl.
      * exact IH.
      * destruct (String.eqb_spec k' k); [contradiction|]. now rewrite IH.
Qed.

Lemma drop_app_own (c : string -> cell) (r : row) :
  forallb (fun k => negb (existsb (String.eqb k) ks)) (map fst r) = true ->
  Pd.drop ks (r ++ map (fun k => (k, c k)) ks)%list = r.
Proof.
  intros Hr. unfold Pd.drop. rewrite filter_app.
  assert (H1 : filter (fun kv : string * cell =>
                         negb (existsb (String.eqb (fst kv)) ks)) r = r).
  { induction r as [|[k v] r IH]; simpl in *; [reflexivity|].
    apply andb_true_iff in Hr. destruct Hr as [Hk Hr].
    rewrite Hk. now rewrite IH. }
  assert (H2 : forall l, (forall k, In k l -> In k ks) ->
                 filter (fun kv : string * cell =>
                           negb (existsb (String.eqb (fst kv)) ks))
                        (map (fun k => (k, c k)) l) = []).
  { induction l as [|k l IH]; intros Hl; simpl; [reflexivity|].
    assert (E : existsb (String.eqb k) ks = true).
    { apply existsb_exists. exists k. split; [apply Hl; now left|].
      apply String.eqb_refl. }
    rewrite E. simpl. apply IH. intros k' Hk'. apply Hl. now right. }
  rewrite H1, H2 by auto. apply app_nil_r.
Qed.

Lemma suffixed_left sfx (r : row) :
  forallb (fun k => negb (existsb (String.eqb k) ks)) (map fst r) = true ->
  Pd.suffixed sfx ks r = r.
Proof.
  unfold Pd.suffixed. induction r as [|[k v] r IH]; simpl; intros H; [reflexivity|].
  apply andb_true_iff in H. destruct H as [Hk Hr].
  apply negb_true_iff in Hk. rewrite Hk. now rewrite IH.
Qed.

Lemma not_in_columns (r : row) k :
  forallb (fun k => negb (existsb (String.eqb k) ks)) (map fst r) = true ->
  In k ks -> existsb (String.eqb k) (map fst r) = false.
Proof.
  intros Hr Hk. destruct (existsb (String.eqb k) (map fst r)) eqn:E; [|reflexivity].
  apply existsb_exists in E. destruct E as (k' & Hin & Heq).
  apply String.eqb_eq in Heq. subst k'.
  rewrite forallb_forall in Hr. specialize (Hr k Hin).
  apply negb_true_iff in Hr.
  assert (existsb (String.eqb k) ks = true).
  { apply existsb_exists. exists k. split; [exact Hk | apply String.eqb_refl]. }
  congruence.
Qed.

Lemma suffixed_right sfx (c : string -> cell) (r : row) :
  forallb (fun k => negb (existsb (String.eqb k) ks)) (map fst r) = true ->
  Pd.suffixed sfx (map fst r) (map (fun k => (k, c k)) ks) =
  map (fun k => (k, c k)) ks.
Proof.
  intros Hr. unfold Pd.suffixed. rewrite map_map.
  apply map_ext_in. intros k Hk. simpl.
  now rewrite (not_in_columns r k Hr Hk).
Qed.

End Rows.

Lemma traverse_total {A B : Type} (f : A -> option B) (g : A -> B) (l : list A) :
  Forall (fun a => f a = Some (g a)) l -> Pd.traverse f l = Some (map g l).
Proof.
  induction 1 as [|a l Ha _ IH]; simpl; [reflexivity|].
  now rewrite Ha, IH.
Qed.

Lemma concat_singletons {A B : Type} (g : A -> B) (l : list A) :
  concat (map (fun a => [g a]) l) = map g l.
Proof. induction l as [|a l IH]; simpl; [reflexivity | now rewrite IH]. Qed.

Lemma insert_desc_perm r l : Permutation (r :: l) (insert_desc r l).
Proof.
  induction l as [|x l IH]; simpl; [reflexivity|].
  destruct (timestamp x <=? timestamp r)%Z; [reflexivity|].
  rewrite perm_swap. now constructor.
Qed.

Lemma order_by_timestamp_desc_perm t : Permutation t (order_by_timestamp_desc t).
Proof.
  induction t as [|x t IH]; simpl; [constructor|].
  rewrite <- insert_desc_perm. now constructor.
Qed.

Lemma filter_map_comm {A B : Type} (p : B -> bool) (f : A -> B) (l : list A) :
  filter p (map f l) = map f (filter (fun a => p (f a)) l).
Proof.
  induction l as [|a l IH]; simpl; [reflexivity|].
  destruct (p (f a)); simpl; now rewrite IH.
Qed.

Lemma filter_none {A : Type} (p : A -> bool) (l : list A) :
  (forall a, p a = false) -> filter p l = [].
Proof.
  intros H. induction l as [|a l IH]; simpl; [reflexivity|]. now rewrite H.
Qed.

(** Under a unique key a [WHERE key = k] selection has at most one row, the
    one [find] returns. *)
Lemma filter_unique {R : Type} (key : R -> string) (k : string) (l : list R) :
  NoDup (map key l) ->
  filter (fun x => key x =? k) l =
  match find (fun x => key x =? k) l with
  | Some p => [p]
  | None => []
  end.
Proof.
  induction l as [|x l IH]; simpl; intros Hnd; [reflexivity|].
  inversion Hnd as [|? ? Hx Hl]; subst.
  destruct (String.eqb_spec (key x) k) as [E|E]; [|now apply IH].
  f_equal. rewrite IH by assumption.
  rewrite find_key_absent; [reflexivity | now rewrite <- E].
Qed.

Lemma lookup_present (r : row) k :
  existsb (String.eqb k) (map fst r) = true -> exists v, Py.lookup r k = Some v.
Proof.
  induction r as [|[k' v] r IH]; simpl; [discriminate|].
  intros H. destruct (String.eqb_spec k' k) as [E|E]; [eauto|].
  apply orb_true_iff in H. destruct H as [H|H]; [|now apply IH].
  apply String.eqb_eq in H. congruence.
Qed.

Lemma call_columns_ok_inv r :
  call_columns_ok r = true ->
  (exists key, Pd.get r "CallSid" = Some key) /\
  forallb (fun k => negb (existsb (String.eqb k) ivr_columns)) (map fst r) = true.
Proof.
  unfold call_columns_ok. intros H. apply andb_true_iff in H.
  destruct H as [H1 H2]. split; [|exact H2].
  now apply lookup_present.
Qed.

Lemma get_sorted sid db :
  NoDup (map call_sid (ivr_paths db)) ->
  find (fun p => call_sid p =? sid) (order_by_timestamp_desc (ivr_paths db)) =
  get sid db.
Proof.
  intros Hnd. symmetry.
  apply (find_key_perm call_sid sid); [apply order_by_timestamp_desc_perm | exact Hnd].
Qed.

(** The left join of one call row: exactly one output row. *)
Lemma merge_row_ok db lcols r :
  NoDup (map call_sid (ivr_paths db)) ->
  call_columns_ok r = true ->
  map fst r = lcols ->
  Pd.merge_row lcols ivr_columns (map (Pd.select ivr_columns) (get_ivr_paths db))
               "CallSid" "call_sid" r =
  [(r ++ joined_columns db r)%list].
Proof.
  intros Hnd Hok <-. apply call_columns_ok_inv in Hok.
  destruct Hok as [[key Hkey] Hcols].
  unfold Pd.merge_row.
  assert (Hk : Pd.row_get r "CallSid" = key) by (unfold Pd.row_get; now rewrite Hkey).
  rewrite Hk.
  rewrite (suffixed_left ivr_columns "_x" r Hcols).
  unfold get_ivr_paths. rewrite map_map, filter_map_comm.
  set (sorted := order_by_timestamp_desc (ivr_paths db)).
  assert (Hpart :
            filter (fun a => Pd.key_eqb key
                               (Pd.row_get (Pd.select ivr_columns (to_row a)) "call_sid"))
                   sorted =
            match partner db r with
            | Some p => [p]
            | None => []
            end).
  { unfold partner. rewrite Hkey.
    destruct key as [|sid|n|l]; try (apply filter_none; reflexivity).
    rewrite <- (get_sorted sid db Hnd). fold sorted.
    rewrite <- (filter_unique call_sid sid sorted).
    - apply filter_ext. intros a. simpl. apply String.eqb_sym.
    - eapply Permutation_NoDup; [|exact Hnd].
      apply Permutation_map, order_by_timestamp_desc_perm. }
  rewrite Hpart. unfold joined_columns.
  destruct (partner db r) as [p|].
  - change ([(r ++ Pd.suffixed "_y" (map fst r)
                     (map (fun k => (k, Pd.row_get (to_row p) k)) ivr_columns))%list]
            = [(r ++ map (fun k => (k, Pd.row_get (to_row p) k)) ivr_columns)%list]).
    now rewrite (suffixed_right ivr_columns "_y" (Pd.row_get (to_row p)) r Hcols).
  - change ([(r ++ Pd.suffixed "_y" (map fst r)
                     (map (fun k => (k, Null)) ivr_columns))%list]
            = [(r ++ map (fun k : string => (k, Null)) ivr_columns)%list]).
    now rewrite (suffixed_right ivr_columns "_y" (fun _ => Null) r Hcols).
Qed.

Lemma in_ivr_columns k :
  In k ivr_columns ->
  k = "call_sid" \/ k = "complete_path" \/ k = "language_choice" \/
  k = "state_choice" \/ k = "service_choice" \/ k = "model_choice" \/
  k = "hp_choice".
Proof. unfold ivr_columns. simpl. intuition. Qed.

(** Reading a path column of the joined row, once [IVRPath] has been set. *)
Lemma row_get_joined db r v k :
  call_columns_ok r = true ->
  In k ivr_columns ->
  Pd.row_get (Pd.set_col "IVRPath" v (r ++ joined_columns db r)%list) k =
  match partner db r with
  | Some p => Pd.row_get (to_row p) k
  | None => Null
  end.
Proof.
  intros Hok Hk. apply call_columns_ok_inv in Hok. destruct Hok as [_ Hcols].
  unfold Pd.row_get at 1. unfold Pd.get.
  rewrite lookup_set_col_other
    by (apply in_ivr_columns in Hk; intuition (subst; discriminate)).
  rewrite lookup_app_absent
    by (apply lookup_absent, (not_in_columns ivr_columns); assumption).
  apply in_ivr_columns in Hk.
  destruct Hk as [H|[H|[H|[H|[H|[H|H]]]]]]; subst k; reflexivity.
Qed.

Lemma selections_joined db r v :
  call_columns_ok r = true ->
  selections (Pd.set_col "IVRPath" v (r ++ joined_columns db r)%list) =
  ivr_selections_of db r.
Proof.
  intros Hok. unfold selections, ivr_selections_of.
  rewrite !(row_get_joined db r v) by (assumption || (simpl; tauto)).
  destruct (partner db r) as [p|]; [|reflexivity].
  change (Pd.row_get (to_row p) "complete_path") with (Pd.of_text (complete_path p)).
  destruct (complete_path p); reflexivity.
Qed.

Lemma drop_joined db r v s :
  call_columns_ok r = true ->
  Pd.drop ivr_columns
          (Pd.set_col "IVRSelections" s
                      (Pd.set_col "IVRPath" v (r ++ joined_columns db r)%list)) =
  Pd.set_col "IVRSelections" s (Pd.set_col "IVRPath" v r).
Proof.
  intros Hok. apply call_columns_ok_inv in Hok. destruct Hok as [_ Hcols].
  rewrite !drop_set_col by reflexivity.
  unfold joined_columns. now rewrite drop_app_own.
Qed.

Lemma order_by_timestamp_desc_nil t : order_by_timestamp_desc t = [] -> t = [].
Proof.
  intros H. apply Permutation_nil. rewrite <- H.
  apply Permutation_sym, order_by_timestamp_desc_perm.
Qed.

Lemma partner_empty db r : ivr_paths db = [] -> partner db r = None.
Proof.
  intros H. unfold partner, get. rewrite H.
  destruct (Pd.get r "CallSid") as [[| | |]|]; reflexivity.
Qed.

Lemma complete_path_joined db r :
  call_columns_ok r = true ->
  Pd.row_get (r ++ joined_columns db r)%list "complete_path" = ivr_path_of db r.
Proof.
  intros Hok. apply call_columns_ok_inv in Hok. destruct Hok as [_ Hcols].
  unfold Pd.row_get, Pd.get.
  rewrite lookup_app_absent
    by (apply lookup_absent, (not_in_columns ivr_columns); simpl; tauto).
  unfold ivr_path_of. simpl. destruct (partner db r); reflexivity.
Qed.

Section Labels.

Variable ks : list string.

Lemma labels_not_in (labels : list string) k :
  forallb (fun k => negb (existsb (String.eqb k) ks)) labels = true ->
  In k ks -> existsb (String.eqb k) labels = false.
Proof.
  intros Hl Hk. destruct (existsb (String.eqb k) labels) eqn:E; [|reflexivity].
  apply existsb_exists in E. destruct E as (k' & Hin & Heq).
  apply String.eqb_eq in Heq. subst k'.
  rewrite forallb_forall in Hl. specialize (Hl k Hin).
  apply negb_true_iff in Hl.
  assert (existsb (String.eqb k) ks = true).
  { apply existsb_exists. exists k. split; [exact Hk | apply String.eqb_refl]. }
  congruence.
Qed.

Lemma suffix_labels_left sfx (labels : list string) :
  forallb (fun k => negb (existsb (String.eqb k) ks)) labels = true ->
  Pd.suffix_labels sfx ks labels = labels.
Proof.
  unfold Pd.suffix_labels. induction labels as [|k l IH]; simpl; intros H; [reflexivity|].
  apply andb_true_iff in H. destruct H as [Hk Hl].
  apply negb_true_iff in Hk. now rewrite Hk, IH.
Qed.

Lemma suffix_labels_right sfx (labels : list string) :
  forallb (fun k => negb (existsb (String.eqb k) ks)) labels = true ->
  Pd.suffix_labels sfx labels ks = ks.
Proof.
  intros H. unfold Pd.suffix_labels. rewrite <- (map_id ks) at 2.
  apply map_ext_in. intros k Hk. now rewrite (labels_not_in labels k H Hk).
Qed.

Lemma drop_labels_app (labels : list string) :
  forallb (fun k => negb (existsb (String.eqb k) ks)) labels = true ->
  filter (fun k => negb (existsb (String.eqb k) ks)) (labels ++ ks) = labels.
Proof.
  intros H. rewrite filter_app.
  assert (H1 : filter (fun k => negb (existsb (String.eqb k) ks)) labels = labels).
  { induction labels as [|k l IH]; simpl in *; [reflexivity|].
    apply andb_true_iff in H. destruct H as [Hk Hl]. now rewrite Hk, IH. }
  assert (H2 : forall l, (forall k, In k l -> In k ks) ->
                 filter (fun k => negb (existsb (String.eqb k) ks)) l = []).
  { induction l as [|k l IH]; intros Hl; simpl; [reflexivity|].
    assert (E : existsb (String.eqb k) ks = true).
    { apply existsb_exists. exists k. split; [apply Hl; now left|].
      apply String.eqb_refl. }
    rewrite E. simpl. apply IH. intros k' Hk'. apply Hl. now right. }
  rewrite H1, H2 by auto. apply app_nil_r.
Qed.

Lemma existsb_filter_labels k (labels : list string) :
  existsb (String.eqb k) ks = false ->
  existsb (String.eqb k) (filter (fun k => negb (existsb (String.eqb k) ks)) labels) =
  existsb (String.eqb k) labels.
Proof.
  intros Hk. induction labels as [|k' l IH]; simpl; [reflexivity|].
  destruct (existsb (String.eqb k') ks) eqn:E; simpl.
  - rewrite IH. destruct (String.eqb_spec k k') as [->|]; [congruence | reflexivity].
  - now rewrite IH.
Qed.

Lemma drop_labels_add k (labels : list string) :
  existsb (String.eqb k) ks = false ->
  filter (fun k => negb (existsb (String.eqb k) ks)) (Pd.add_label k labels) =
  Pd.add_label k (filter (fun k => negb (existsb (String.eqb k) ks)) labels).
Proof.
  intros Hk. unfold Pd.add_label. rewrite existsb_filter_labels by assumption.
  destruct (existsb (String.eqb k) labels); [reflexivity|].
  rewrite filter_app. simpl. now rewrite Hk.
Qed.

End Labels.

Lemma labels_set_col k v (r : row) :
  map fst (Pd.set_col k v r) = Pd.add_label k (map fst r).
Proof.
  unfold Pd.add_label. induction r as [|[k' v'] r IH]; simpl; [reflexivity|].
  destruct (String.eqb_spec k' k) as [->|E]; simpl.
  - now rewrite String.eqb_refl.
  - rewrite IH. destruct (String.eqb_spec k k') as [->|]; [contradiction|]. simpl.
    destruct (existsb (String.eqb k) (map fst r)); reflexivity.
Qed.

Lemma labels_ok_row df r :
  well_formed df -> labels_ok (columns df) = true -> In r (rows df) ->
  call_columns_ok r = true /\ map fst r = columns df.
Proof.
  intros Hwf Hl Hin. unfold well_formed in Hwf. rewrite Forall_forall in Hwf.
  specialize (Hwf r Hin). split; [|exact Hwf].
  unfold call_columns_ok, Pd.has_col. rewrite Hwf. exact Hl.
Qed.

Lemma text_keys (l : list row) :
  Forall (fun r => text_key r = true) l ->
  existsb Pd.is_lst (map (fun r => Pd.row_get r "CallSid") l) = false /\
  Pd.numeric_dtype (map (fun r => Pd.row_get r "CallSid") l) = false.
Proof.
  intros H.
  assert (E : existsb Pd.is_lst (map (fun r => Pd.row_get r "CallSid") l) = false /\
              existsb Pd.is_num (map (fun r => Pd.row_get r "CallSid") l) = false).
  { induction H as [|r l Hr _ [IH1 IH2]]; [split; reflexivity|].
    simpl. rewrite IH1, IH2. unfold text_key in Hr.
    destruct (Pd.row_get r "CallSid"); try discriminate. split; reflexivity. }
  destruct E as [E1 E2]. split; [exact E1|].
  unfold Pd.numeric_dtype. now rewrite E2.
Qed.

(** The whole merge on a call frame that needs no renaming and has text
    keys, over a path table with unique [call_sid]: every call row comes
    back once, in place, with its two derived columns set. *)
Lemma merge_with_call_data_spec db call_df :
  NoDup (map call_sid (ivr_paths db)) ->
  call_frame_ok call_df ->
  merge_with_call_data db call_df =
  Some (mk_frame (Pd.add_label "IVRSelections"
                               (Pd.add_label "IVRPath" (columns call_df)))
                 (map (with_ivr_columns db) (rows call_df))).
Proof.
  intros Hnd (Hwf & Hl & Hkeys). unfold merge_with_call_data.
  destruct (get_ivr_paths db) as [|x l] eqn:E.
  - unfold Pd.assign. simpl. rewrite map_map. do 2 f_equal.
    apply map_ext. intros r.
    unfold get_ivr_paths in E. apply map_eq_nil, order_by_timestamp_desc_nil in E.
    unfold with_ivr_columns, ivr_selections_of, ivr_path_of.
    now rewrite (partner_empty db r E).
  - rewrite <- E.
    pose proof Hl as Hl'. unfold labels_ok in Hl'.
    apply andb_true_iff in Hl'. destruct Hl' as [Hsid Hcols].
    unfold Pd.merge_left, Pd.has_column. rewrite Hsid. cbn [negb].
    destruct (text_keys (rows call_df) Hkeys) as [-> ->]. cbn [andb].
    cbn [columns rows].
    rewrite (suffix_labels_left ivr_columns "_x" _ Hcols).
    rewrite (suffix_labels_right ivr_columns "_y" _ Hcols).
    rewrite existsb_app.
    replace (existsb (String.eqb "complete_path") ivr_columns) with true by reflexivity.
    rewrite orb_true_r. cbn [negb].
    unfold Pd.drop_columns, Pd.assign. cbn [columns rows].
    f_equal. f_equal.
    + rewrite !(drop_labels_add ivr_columns) by reflexivity.
      now rewrite (drop_labels_app ivr_columns _ Hcols).
    + assert (Hrows :
                concat (map (Pd.merge_row (columns call_df) ivr_columns
                               (map (Pd.select ivr_columns) (get_ivr_paths db))
                               "CallSid" "call_sid") (rows call_df)) =
                map (fun r => (r ++ joined_columns db r)%list) (rows call_df)).
      { rewrite <- (concat_singletons (fun r => (r ++ joined_columns db r)%list)).
        f_equal. apply map_ext_in. intros r Hr.
        destruct (labels_ok_row call_df r Hwf Hl Hr) as [Hok Hlab].
        now apply merge_row_ok. }
      rewrite Hrows, !map_map. apply map_ext_in. intros r Hr.
      destruct (labels_ok_row call_df r Hwf Hl Hr) as [Hok _].
      rewrite (complete_path_joined db r Hok), selections_joined by assumption.
      now apply drop_joined.
Qed.

Lemma with_ivr_columns_labels db r :
  map fst (with_ivr_columns db r) =
  Pd.add_label "IVRSelections" (Pd.add_label "IVRPath" (map fst r)).
Proof. unfold with_ivr_columns. now rewrite !labels_set_col. Qed.

Lemma call_sid_touched step v r : call_sid (touched step v r) = call_sid r.
Proof. unfold touched. simpl. apply call_sid_set_step. Qed.

(** The [UNIQUE] constraint on [call_sid] is never violated. *)
Lemma update_paths_unique now sid step d f g t :
  NoDup (map call_sid t) -> NoDup (map call_sid (update_paths now sid step d f g t)).
Proof.
  intros Hnd.
  destruct (Sql.fetchone (has_sid sid) t) as [r|] eqn:E.
  - rewrite (update_paths_existing _ _ _ _ _ _ _ _ E).
    unfold Sql.update. rewrite map_map.
    erewrite map_ext; [exact Hnd|].
    intros a. simpl. destruct (has_sid sid a); [apply call_sid_touched | reflexivity].
  - rewrite (update_paths_absent _ _ _ _ _ _ _ E).
    rewrite map_app. simpl.
    apply NoDup_app; [exact Hnd | repeat constructor; simpl; tauto |].
    intros k Hk [Hk'|[]]. subst k.
    apply in_map_iff in Hk. destruct Hk as (a & Ha & Hin).
    pose proof (find_none_in _ _ _ E Hin) as Hn.
    unfold has_sid in Hn. rewrite Ha, String.eqb_refl in Hn. discriminate.
Qed.

Lemma run_unique evs db :
  NoDup (map call_sid (ivr_paths db)) ->
  NoDup (map call_sid (ivr_paths (run evs db))).
Proof.
  revert db. induction evs as [|e evs IH]; intros db H; [exact H|].
  simpl. apply IH. apply update_paths_unique, H.
Qed.

Lemma Forall2_map_right {A B : Type} (P : A -> B -> Prop) (f : A -> B) (l : list A) :
  (forall a, In a l -> P a (f a)) -> Forall2 P l (map f l).
Proof.
  induction l as [|a l IH]; intros H; simpl; constructor.
  - apply H. now left.
  - apply IH. intros b Hb. apply H. now right.
Qed.

Lemma set_col_absent k v (r : row) :
  Pd.has_col r k = false -> Pd.set_col k v r = (r ++ [(k, v)])%list.
Proof.
  unfold Pd.has_col. induction r as [|[k' v'] r IH]; simpl; intros H; [reflexivity|].
  apply orb_false_iff in H. destruct H as [H1 H2].
  rewrite String.eqb_sym, H1. now rewrite IH.
Qed.

Lemma set_col_labels k v (r : row) :
  Pd.has_col r k = true -> map fst (Pd.set_col k v r) = map fst r.
Proof.
  unfold Pd.has_col. induction r as [|[k' v'] r IH]; simpl; intros H; [discriminate|].
  destruct (String.eqb_spec k' k) as [E|E]; simpl; [now subst|].
  f_equal. apply IH. apply orb_true_iff in H. destruct H as [H|H]; [|exact H].
  apply String.eqb_eq in H. congruence.
Qed.

Lemma has_col_set_col_other k k0 v (r : row) :
  k <> k0 -> Pd.has_col (Pd.set_col k0 v r) k = Pd.has_col r k.
Proof.
  intros Hk. unfold Pd.has_col.
  induction r as [|[k' v'] r IH]; simpl.
  - destruct (String.eqb_spec k k0); [contradiction | reflexivity].
  - destruct (String.eqb_spec k' k0) as [E|E]; simpl; [|now rewrite IH].
    subst k'. destruct (String.eqb_spec k k0); [contradiction | reflexivity].
Qed.

(** The cells of a call row after the merge. *)
Lemma with_ivr_columns_get db r :
  (forall k, k <> "IVRPath" -> k <> "IVRSelections" ->
             Pd.get (with_ivr_columns db r) k = Pd.get r k) /\
  Pd.get (with_ivr_columns db r) "IVRPath" = Some (ivr_path_of db r) /\
  Pd.get (with_ivr_columns db r) "IVRSelections" = Some (ivr_selections_of db r).
Proof.
  unfold with_ivr_columns, Pd.get. repeat split.
  - intros k H1 H2. now rewrite !lookup_set_col_other.
  - rewrite lookup_set_col_other by discriminate. apply lookup_set_col_same.
  - apply lookup_set_col_same.
Qed.

Lemma add_label_absent k (labels : list string) :
  existsb (String.eqb k) labels = false -> Pd.add_label k labels = (labels ++ [k])%list.
Proof. unfold Pd.add_label. now intros ->. Qed.

Lemma add_label_present k (labels : list string) :
  existsb (String.eqb k) labels = true -> Pd.add_label k labels = labels.
Proof. unfold Pd.add_label. now intros ->. Qed.

Lemma existsb_add_label_other k k0 (labels : list string) :
  k <> k0 ->
  existsb (String.eqb k) (Pd.add_label k0 labels) = existsb (String.eqb k) labels.
Proof.
  intros Hk. unfold Pd.add_label.
  destruct (existsb (String.eqb k0) labels); [reflexivity|].
  rewrite existsb_app. simpl.
  destruct (String.eqb_spec k k0); [contradiction|]. now rewrite !orb_false_r.
Qed.

Lemma merged_well_formed db df :
  well_formed df ->
  well_formed (mk_frame (Pd.add_label "IVRSelections"
                                      (Pd.add_label "IVRPath" (columns df)))
                        (map (with_ivr_columns db) (rows df))).
Proof.
  unfold well_formed. cbn [columns rows]. intros H.
  apply Forall_map. eapply Forall_impl; [|exact H].
  intros r Hr. cbv beta in Hr. now rewrite with_ivr_columns_labels, Hr.
Qed.

(** C10 (amended): over a path table with unique [call_sid], and for a call
    frame whose rows all carry the frame's columns, that has the [CallSid]
    column with text in every cell and no column named like a path column,
    the merge succeeds and returns one row per call row, in the same order;
    every column other than [IVRPath] and [IVRSelections] keeps its value;
    the two derived columns are added after the call columns when the call
    frame lacks them, and overwritten in place, with no column added, when
    it already has them. *)
Theorem merge_keeps_call_rows :
  forall db call_df,
    NoDup (map call_sid (ivr_paths db)) ->
    call_frame_ok call_df ->
    exists out,
      merge_with_call_data db call_df = Some out /\
      well_formed out /\
      length (rows out) = length (rows call_df) /\
      (Pd.has_column call_df "IVRPath" = false ->
       Pd.has_column call_df "IVRSelections" = false ->
       columns out = (columns call_df ++ ["IVRPath"; "IVRSelections"])%list) /\
      (Pd.has_column call_df "IVRPath" = true ->
       Pd.has_column call_df "IVRSelections" = true ->
       columns out = columns call_df) /\
      Forall2 (fun r o =>
                 (forall k, k <> "IVRPath" -> k <> "IVRSelections" ->
                            Pd.get o k = Pd.get r k) /\
                 Pd.get o "IVRPath" = Some (ivr_path_of db r) /\
                 Pd.get o "IVRSelections" = Some (ivr_selections_of db r) /\
                 (Pd.has_col r "IVRPath" = false ->
                  Pd.has_col r "IVRSelections" = false ->
                  o = (r ++ [("IVRPath", ivr_path_of db r);
                             ("IVRSelections", ivr_selections_of db r)])%list) /\
                 (Pd.has_col r "IVRPath" = true ->
                  Pd.has_col r "IVRSelections" = true ->
                  map fst o = map fst r))
              (rows call_df) (rows out).
Proof.
  intros db call_df Hnd Hok.
  exists (mk_frame (Pd.add_label "IVRSelections"
                                 (Pd.add_label "IVRPath" (columns call_df)))
                   (map (with_ivr_columns db) (rows call_df))).
  split; [now apply merge_with_call_data_spec|].
  split; [apply merged_well_formed, Hok|].
  cbn [columns rows]. split; [apply length_map|]. split; [|split].
  - unfold Pd.has_column. intros Hp Hs.
    rewrite (add_label_absent "IVRPath") by assumption.
    rewrite add_label_absent.
    + now rewrite <- app_assoc.
    + rewrite existsb_app, Hs. reflexivity.
  - unfold Pd.has_column. intros Hp Hs.
    rewrite (add_label_present "IVRPath") by assumption.
    now apply add_label_present.
  - apply Forall2_map_right. intros r _.
    destruct (with_ivr_columns_get db r) as (H1 & H2 & H3).
    repeat split; try assumption.
    + intros Hp Hs. unfold with_ivr_columns.
      rewrite (set_col_absent "IVRPath") by assumption.
      rewrite set_col_absent.
      * now rewrite <- app_assoc.
      * rewrite <- (set_col_absent "IVRPath" (ivr_path_of db r)) by assumption.
        now rewrite has_col_set_col_other by discriminate.
    + intros Hp Hs. unfold with_ivr_columns.
      rewrite set_col_labels.
      * now apply set_col_labels.
      * now rewrite has_col_set_col_other by discriminate.
Qed.

Lemma merge_keeps_call_rows_witness :
  let db := run [mk_event 1 "CA1" "language" (Some "2") None None;
                 mk_event 2 "CA2" "language" (Some "1") None None;
                 mk_event 3 "CA1" "state" (Some "3") None None] init_database in
  let call_df :=
    mk_frame ["CallSid"; "Status"; "Duration"]
             [[("CallSid", Str "CA1"); ("Status", Str "completed"); ("Duration", Num 42)];
              [("CallSid", Str "CA9"); ("Status", Str "failed"); ("Duration", Num 0)]] in
  exists out,
    merge_with_call_data db call_df = Some out /\
    length (rows out) = 2 /\
    columns out = ["CallSid"; "Status"; "Duration"; "IVRPath"; "IVRSelections"].
Proof.
  intros db call_df.
  destruct (merge_keeps_call_rows db call_df) as (out & H1 & _ & H2 & H3 & _).
  - simpl. repeat constructor; simpl; intuition discriminate.
  - unfold call_frame_ok, well_formed. simpl. repeat constructor.
  - exists out. split; [exact H1|]. split; [exact H2|].
    apply H3; reflexivity.
Defined.

(** C10, as stated, fails on the frame that [get_calls] hands over, which
    already has the columns [IVRPath] and [IVRSelections]: no column is added
    and the value of the call column [IVRPath] changes. *)
Lemma merge_overwrites_existing_ivr_columns :
  let db := run [mk_event 1 "CA1" "language" (Some "2") None None] init_database in
  let r := [("CallSid", Str "CA1"); ("IVRPath", Null); ("IVRSelections", Null)] in
  let call_df := mk_frame ["CallSid"; "IVRPath"; "IVRSelections"] [r] in
  exists o,
    merge_with_call_data db call_df = Some (mk_frame (columns call_df) [o]) /\
    map fst o = map fst r /\
    Pd.get o "IVRPath" <> Pd.get r "IVRPath" /\
    Pd.get o "IVRSelections" <> Pd.get r "IVRSelections".
Proof.
  eexists. split; [reflexivity|]. repeat split; discriminate.
Qed.

(** C8 (amended): with a path table built by the store (unique [call_sid],
    every path the join of its choices) and a call frame whose rows all
    carry the frame's columns, that has the [CallSid] column with text in
    every cell and no column named like a path column, a call without a path
    record gets null selections, and a call with one gets the list of its
    choices that are set, in step order, a choice set to the empty string
    included; when all five choices are unset that list is empty, not
    null. *)
Theorem selections_absent_or_set_choices :
  forall db call_df,
    NoDup (map call_sid (ivr_paths db)) ->
    Forall path_ok (ivr_paths db) ->
    call_frame_ok call_df ->
    (exists out,
        merge_with_call_data db call_df = Some out /\
        Forall2 (fun r o =>
                   Pd.get o "IVRSelections" =
                   Some match partner db r with
                        | Some p => Lst (set_choices p)
                        | None => Null
                        end)
                (rows call_df) (rows out)) /\
    (forall p, choices p = [None; None; None; None; None] -> set_choices p = []) /\
    (forall p, set_choices p =
               filter Pd.notna
                      [Pd.of_text (language_choice p); Pd.of_text (state_choice p);
                       Pd.of_text (service_choice p); Pd.of_text (model_choice p);
                       Pd.of_text (hp_choice p)]).
Proof.
  intros db call_df Hnd Hpok Hok. split; [|split].
  - exists (mk_frame (Pd.add_label "IVRSelections"
                                   (Pd.add_label "IVRPath" (columns call_df)))
                     (map (with_ivr_columns db) (rows call_df))).
    split.
    + now apply merge_with_call_data_spec.
    + cbn [rows]. apply Forall2_map_right. intros r _.
      destruct (with_ivr_columns_get db r) as (_ & _ & H3).
      rewrite H3. f_equal. unfold ivr_selections_of.
      destruct (partner db r) as [p|] eqn:Ep; [|reflexivity].
      assert (Hin : In p (ivr_paths db)).
      { unfold partner in Ep.
        destruct (Pd.get r "CallSid") as [[|sid| |]|]; try discriminate.
        unfold get, Sql.fetchone in Ep. now apply find_some in Ep. }
      rewrite Forall_forall in Hpok. specialize (Hpok p Hin).
      unfold path_ok in Hpok. now rewrite Hpok.
  - intros p Hp. unfold set_choices. now rewrite Hp.
  - reflexivity.
Qed.

Lemma selections_absent_or_set_choices_witness :
  let db := run [mk_event 1 "CA1" "language" (Some "2") None None;
                 mk_event 2 "CA2" "menu" None None None] init_database in
  let call_df := mk_frame ["CallSid"]
                          [[("CallSid", Str "CA1")]; [("CallSid", Str "CA2")];
                           [("CallSid", Str "CA3")]] in
  exists out,
    merge_with_call_data db call_df = Some out /\
    map (fun o => Pd.get o "IVRSelections") (rows out) =
    [Some (Lst [Str "2"]); Some (Lst []); Some Null].
Proof.
  intros db call_df.
  destruct (selections_absent_or_set_choices db call_df) as ((out & H1 & H2) & _).
  - simpl. repeat constructor; simpl; intuition discriminate.
  - repeat constructor.
  - unfold call_frame_ok, well_formed. simpl. repeat constructor.
  - exists out. split; [exact H1|].
    destruct out as [cols out]. cbn [rows] in *. simpl in H2.
    inversion H2 as [|? o1 ? l1 E1 H3]; subst.
    inversion H3 as [|? o2 ? l2 E2 H4]; subst.
    inversion H4 as [|? o3 ? l3 E3 H5]; subst.
    inversion H5; subst. simpl. rewrite E1, E2, E3. reflexivity.
Defined.

(** C8, as stated, fails: a digit that arrives as two double quotes is
    cleaned to the empty string and stored, and the selections keep that
    empty value. *)
Lemma selections_keep_empty_choice :
  let quotes := String dquote (String dquote "") in
  let db1 := fst (ivr_webhook 1 1 "language"
                    (mk_request [("CallSid", "CA1"); ("digits", "1")] [])
                    init_database) in
  let db2 := fst (ivr_webhook 2 2 "state"
                    (mk_request [("CallSid", "CA1"); ("digits", quotes)] [])
                    db1) in
  option_map choices (get "CA1" db2) = Some [Some "1"; Some ""; None; None; None] /\
  merge_with_call_data db2 (mk_frame ["CallSid"] [[("CallSid", Str "CA1")]]) =
    Some (mk_frame ["CallSid"; "IVRPath"; "IVRSelections"]
                   [[("CallSid", Str "CA1"); ("IVRPath", Str "1----");
                     ("IVRSelections", Lst [Str "1"; Str ""])]]) /\
  option_map nonempty_choices (get "CA1" db2) = Some [Str "1"] /\
  Lst [Str "1"; Str ""] <> Lst [Str "1"].
Proof. repeat split. discriminate. Qed.

(** * Further properties of the sources *)

(** ** One call of [update_ivr_path] *)

Lemma touched_fixed step v r :
  id (touched step v r) = id r /\
  call_sid (touched step v r) = call_sid r /\
  from_number (touched step v r) = from_number r /\
  to_number (touched step v r) = to_number r /\
  timestamp (touched step v r) = timestamp r.
Proof. unfold touched, set_step. step_cases; repeat split. Qed.

(** X1: on the update branch the record keeps its key, call identifier,
    caller and callee numbers and creation time, whatever the event carries,
    and among the five choices only the one named by the step is written; no
    row is added. *)
Theorem update_writes_one_choice :
  forall now sid step d f g db r,
    get sid db = Some r ->
    exists r',
      get sid (update_ivr_path now sid step d f g db) = Some r' /\
      id r' = id r /\ call_sid r' = call_sid r /\
      from_number r' = from_number r /\ to_number r' = to_number r /\
      timestamp r' = timestamp r /\
      (forall s, is_step s = true ->
                 choice s r' = if step =? s then clean d else choice s r) /\
      length (ivr_paths (update_ivr_path now sid step d f g db)) =
      length (ivr_paths db).
Proof.
  intros now sid step d f g db r Hget.
  exists (touched step (clean d) r).
  destruct (touched_fixed step (clean d) r) as (H1 & H2 & H3 & H4 & H5).
  unfold get in *. simpl.
  rewrite fetchone_update_paths, Hget.
  repeat split; try assumption.
  - intros s Hs. now apply choice_touched.
  - rewrite (update_paths_existing _ _ _ _ _ _ _ _ Hget).
    unfold Sql.update. apply length_map.
Qed.

Lemma update_writes_one_choice_witness :
  let db := update_ivr_path 10 "CA1" "language" (Some "1") (Some "0123") None init_database in
  exists r',
    get "CA1" (update_ivr_path 20 "CA1" "state" (Some "2") (Some "0999") (Some "0456") db)
    = Some r' /\
    from_number r' = Some "0123" /\ to_number r' = None /\ timestamp r' = 10%Z.
Proof.
  intros db.
  destruct (update_writes_one_choice 20 "CA1" "state" (Some "2") (Some "0999")
              (Some "0456") db
              (set_complete_path
                 (new_row 10 [] "CA1" "language" (Some "1") (Some "0123") None))
              eq_refl)
    as (r' & H1 & _ & _ & H4 & H5 & H6 & _).
  exists r'. repeat split; assumption.
Defined.

(** X2: on the create branch exactly one row is appended; it carries the
    call identifier, the numbers and the clock reading of the event, the
    cleaned digit in the column of the step, and every other choice unset. *)
Theorem create_appends_one_row :
  forall now sid step d f g db,
    get sid db = None ->
    exists r',
      ivr_paths (update_ivr_path now sid step d f g db) = (ivr_paths db ++ [r'])%list /\
      get sid (update_ivr_path now sid step d f g db) = Some r' /\
      call_sid r' = sid /\ from_number r' = f /\ to_number r' = g /\
      timestamp r' = now /\
      (forall s, is_step s = true ->
                 choice s r' = if step =? s then clean d else None).
Proof.
  intros now sid step d f g db Hget.
  exists (set_complete_path (new_row now (ivr_paths db) sid step (clean d) f g)).
  unfold get in *. simpl.
  rewrite fetchone_update_paths, Hget.
  rewrite (update_paths_absent _ _ _ _ _ _ _ Hget).
  repeat split.
  intros s Hs. now apply choice_new_row.
Qed.

Lemma create_appends_one_row_witness :
  exists r',
    ivr_paths (update_ivr_path 10 "CA1" "service" (Some "4") (Some "0123") None
                               init_database) = [r'] /\
    choices r' = [None; None; Some "4"; None; None].
Proof.
  destruct (create_appends_one_row 10 "CA1" "service" (Some "4") (Some "0123") None
              init_database eq_refl) as (r' & H1 & H2 & _).
  exists r'. split; [exact H1|].
  simpl in H1. injection H1 as <-. reflexivity.
Defined.

Lemma find_update_other {R : Type} (p q : R -> bool) (f : R -> R) (t : list R) :
  (forall r, q r = true -> p r = false) ->
  (forall r, p r = true -> q (f r) = false) ->
  find q (Sql.update p f t) = find q t.
Proof.
  intros H1 H2. unfold Sql.update.
  induction t as [|x t IH]; simpl; [reflexivity|].
  destruct (p x) eqn:Ep.
  - rewrite (H2 x Ep).
    destruct (q x) eqn:Eq; [|exact IH].
    rewrite (H1 x Eq) in Ep. discriminate.
  - now rewrite IH.
Qed.

Lemma has_sid_other sid sid' r :
  sid' <> sid -> has_sid sid' r = true -> has_sid sid r = false.
Proof.
  unfold has_sid. intros Hne H. apply String.eqb_eq in H.
  apply String.eqb_neq. congruence.
Qed.

Lemma find_app {R : Type} (p : R -> bool) (t u : list R) :
  find p (t ++ u) = match find p t with
                    | Some r => Some r
                    | None => find p u
                    end.
Proof.
  induction t as [|x t IH]; simpl; [reflexivity|].
  destruct (p x); [reflexivity | exact IH].
Qed.

Lemma filter_update_others {R : Type} (p : R -> bool) (f : R -> R) (t : list R) :
  (forall r, p (f r) = p r) ->
  filter (fun r => negb (p r)) (Sql.update p f t) = filter (fun r => negb (p r)) t.
Proof.
  intros Hp. unfold Sql.update.
  induction t as [|x t IH]; simpl; [reflexivity|].
  destruct (p x) eqn:Ex.
  - rewrite Hp, Ex. simpl. exact IH.
  - rewrite Ex. simpl. now rewrite IH.
Qed.

(** X3: a call of [update_ivr_path] for one call identifier leaves the
    record of every other call identifier as it was, and keeps all rows of
    other calls, in their order. *)
Theorem other_calls_untouched :
  forall now sid step d f g db,
    (forall sid', sid' <> sid ->
                  get sid' (update_ivr_path now sid step d f g db) = get sid' db) /\
    filter (fun r => negb (has_sid sid r))
           (ivr_paths (update_ivr_path now sid step d f g db)) =
    filter (fun r => negb (has_sid sid r)) (ivr_paths db).
Proof.
  intros now sid step d f g db. simpl. split.
  - intros sid' Hne. unfold get, Sql.fetchone. simpl.
    destruct (Sql.fetchone (has_sid sid) (ivr_paths db)) as [r|] eqn:E.
    + rewrite (update_paths_existing _ _ _ _ _ _ _ _ E).
      apply find_update_other.
      * intros a. now apply has_sid_other.
      * intros a Ha. rewrite has_sid_touched.
        destruct (has_sid sid' a) eqn:E'; [|reflexivity].
        rewrite (has_sid_other sid sid' a Hne E') in Ha. discriminate.
    + rewrite (update_paths_absent _ _ _ _ _ _ _ E).
      rewrite find_app. destruct (find (has_sid sid') (ivr_paths db)); [reflexivity|].
      simpl. unfold has_sid at 1. simpl.
      destruct (String.eqb_spec sid sid'); [congruence | reflexivity].
  - destruct (Sql.fetchone (has_sid sid) (ivr_paths db)) as [r|] eqn:E.
    + rewrite (update_paths_existing _ _ _ _ _ _ _ _ E).
      apply filter_update_others. intros a. apply has_sid_touched.
    + rewrite (update_paths_absent _ _ _ _ _ _ _ E).
      rewrite filter_app. cbn [filter].
      rewrite has_sid_set_complete_path, has_sid_new_row. cbn [negb].
      apply app_nil_r.
Qed.

(** ** Requests through [ivr_webhook] *)

Lemma truthy_sid s : s <> "" -> Py.truthy (Some s) = true.
Proof.
  intros H. simpl. destruct (String.eqb_spec s ""); [contradiction | reflexivity].
Qed.

(** X4: a request for one of the five steps that carries a call identifier
    is answered with status 200 and echoes the digits as received; one row
    with the cleaned digit is appended to the raw log; afterwards the
    record of the call stores the cleaned digit for that step and keeps its
    other choices, and the path table has grown by one row exactly when the
    call had no record. *)
Theorem webhook_records_valid_step :
  forall t1 t2 step req db s,
    is_step step = true ->
    param req "CallSid" = Some s -> s <> "" ->
    let out := ivr_webhook t1 t2 step req db in
    snd out = Success ("IVR input recorded for " ++ step) s (param req "digits") 200 /\
    ivr_inputs (fst out) =
      (ivr_inputs db ++
         [mk_input (Sql.next_id in_id (ivr_inputs db)) s
                   (param req "From") (param req "To") step
                   (clean (param req "digits")) t1
                   (param req "To") (param req "CallerCircle")])%list /\
    stored step s (fst out) = clean (param req "digits") /\
    (forall step', is_step step' = true -> step' <> step ->
                   stored step' s (fst out) = stored step' s db) /\
    length (ivr_paths (fst out)) =
      length (ivr_paths db) + match get s db with Some _ => 0 | None => 1 end.
Proof.
  intros t1 t2 step req db s Hstep Hsid Hne out.
  assert (Hout : out =
                 (upsert_step
                    (store_ivr_input t1 s step (param req "digits") (param req "From")
                                     (param req "To") (param req "To")
                                     (param req "CallerCircle") db)
                    (mk_event t2 s step (param req "digits") (param req "From")
                              (param req "To")),
                  Success ("IVR input recorded for " ++ step) s (param req "digits") 200)).
  { unfold out, ivr_webhook. now rewrite Hsid, (truthy_sid s Hne). }
  rewrite Hout. cbn [fst snd]. split; [reflexivity|]. split; [reflexivity|].
  set (e := mk_event t2 s step (param req "digits") (param req "From") (param req "To")).
  set (db1 := store_ivr_input _ _ _ _ _ _ _ _ db).
  assert (Hs : forall k, stored k s db1 = stored k s db) by reflexivity.
  split; [|split].
  - change s with (ev_sid e) at 1. rewrite stored_upsert_step by assumption.
    simpl. now rewrite String.eqb_refl.
  - intros step' Hstep' Hdiff.
    change s with (ev_sid e) at 1. rewrite stored_upsert_step by assumption.
    simpl. rewrite Hs.
    destruct (String.eqb_spec step step'); [congruence | reflexivity].
  - unfold upsert_step, get. simpl.
    destruct (Sql.fetchone (has_sid s) (ivr_paths db)) as [r|] eqn:E.
    + rewrite (update_paths_existing _ _ _ _ _ _ _ _ E).
      unfold Sql.update. rewrite length_map. lia.
    + rewrite (update_paths_absent _ _ _ _ _ _ _ E).
      rewrite length_app. reflexivity.
Qed.

Lemma webhook_records_valid_step_witness :
  let req := mk_request [("CallSid", "CA7"); ("digits", String dquote ("3" ++ String dquote ""))]
                        [("From", "0123")] in
  snd (ivr_webhook 1 2 "service" req init_database) =
    Success "IVR input recorded for service" "CA7"
            (Some (String dquote ("3" ++ String dquote ""))) 200 /\
  stored "service" "CA7" (fst (ivr_webhook 1 2 "service" req init_database)) = Some "3".
Proof.
  intros req.
  destruct (webhook_records_valid_step 1 2 "service" req init_database "CA7")
    as (H1 & _ & H3 & _); [reflexivity | reflexivity | discriminate |].
  split; [exact H1 | exact H3].
Defined.

(** What one request does to the store. *)
Lemma serve_unfold db h :
  serve db h =
  if accepted h then
    update_ivr_path (hit_t2 h) (hit_sid h) (hit_step h)
                    (param (hit_req h) "digits") (param (hit_req h) "From")
                    (param (hit_req h) "To")
      (store_ivr_input (hit_t1 h) (hit_sid h) (hit_step h)
                       (param (hit_req h) "digits") (param (hit_req h) "From")
                       (param (hit_req h) "To") (param (hit_req h) "To")
                       (param (hit_req h) "CallerCircle") db)
  else db.
Proof.
  unfold serve, ivr_webhook, accepted, hit_sid.
  destruct (param (hit_req h) "CallSid") as [s|]; [|reflexivity].
  destruct (Py.truthy (Some s)); reflexivity.
Qed.

Lemma max_seq s n :
  fold_right Z.max 0%Z (map Z.of_nat (seq s n)) =
  match n with
  | O => 0%Z
  | S m => Z.of_nat (s + m)
  end.
Proof.
  revert s. induction n as [|n IH]; intros s; [reflexivity|].
  simpl seq. simpl map. simpl fold_right. rewrite IH.
  destruct n; lia.
Qed.

Lemma next_id_seq {R : Type} (key : R -> Z) (t : list R) :
  map key t = map Z.of_nat (seq 1 (length t)) ->
  Sql.next_id key t = Z.of_nat (S (length t)).
Proof.
  intros H. unfold Sql.next_id.
  assert (E : fold_right (fun r m => Z.max (key r) m) 0%Z t =
              fold_right Z.max 0%Z (map key t)).
  { clear H. induction t as [|x t IH]; simpl; [reflexivity | now rewrite IH]. }
  rewrite E, H, max_seq. destruct (length t); lia.
Qed.

Lemma keys_snoc {R : Type} (key : R -> Z) (t : list R) (x : R) :
  map key t = map Z.of_nat (seq 1 (length t)) ->
  key x = Sql.next_id key t ->
  map key (t ++ [x]) = map Z.of_nat (seq 1 (length (t ++ [x]))).
Proof.
  intros H Hx. rewrite length_app. simpl length.
  rewrite Nat.add_1_r, seq_S, !map_app, H. simpl.
  now rewrite Hx, (next_id_seq key t H).
Qed.

Lemma map_call_sid_update_paths now sid step d f g t :
  map call_sid (update_paths now sid step d f g t) =
  match Sql.fetchone (has_sid sid) t with
  | Some _ => map call_sid t
  | None => (map call_sid t ++ [sid])%list
  end.
Proof.
  destruct (Sql.fetchone (has_sid sid) t) as [r|] eqn:E.
  - rewrite (update_paths_existing _ _ _ _ _ _ _ _ E).
    unfold Sql.update. rewrite map_map. apply map_ext. intros a.
    destruct (has_sid sid a); [apply call_sid_touched | reflexivity].
  - rewrite (update_paths_absent _ _ _ _ _ _ _ E). now rewrite map_app.
Qed.

Lemma map_id_update_paths now sid step d f g t :
  map id (update_paths now sid step d f g t) =
  match Sql.fetchone (has_sid sid) t with
  | Some _ => map id t
  | None => (map id t ++ [Sql.next_id id t])%list
  end.
Proof.
  destruct (Sql.fetchone (has_sid sid) t) as [r|] eqn:E.
  - rewrite (update_paths_existing _ _ _ _ _ _ _ _ E).
    unfold Sql.update. rewrite map_map. apply map_ext. intros a.
    destruct (has_sid sid a); [apply touched_fixed | reflexivity].
  - rewrite (update_paths_absent _ _ _ _ _ _ _ E). now rewrite map_app.
Qed.

Lemma fetchone_in sid t :
  (exists r, Sql.fetchone (has_sid sid) t = Some r) <-> In sid (map call_sid t).
Proof.
  unfold Sql.fetchone. split.
  - intros [r H]. apply find_some in H. destruct H as [Hin Hs].
    apply String.eqb_eq in Hs. apply in_map_iff. eauto.
  - intros H. apply in_map_iff in H. destruct H as (r & Hr & Hin).
    destruct (find (has_sid sid) t) as [r'|] eqn:E; [eauto|].
    pose proof (find_none_in _ _ _ E Hin) as Hn.
    unfold has_sid in Hn. rewrite Hr, String.eqb_refl in Hn. discriminate.
Qed.

Lemma serve_tables_ok db h : tables_ok db -> tables_ok (serve db h).
Proof.
  intros (H1 & H2 & H3 & H4). rewrite serve_unfold.
  destruct (accepted h); [|repeat split; assumption || apply H4].
  unfold tables_ok. simpl.
  repeat split.
  - now apply keys_snoc.
  - destruct (Sql.fetchone (has_sid (hit_sid h)) (ivr_paths db)) as [r|] eqn:E.
    + rewrite (update_paths_existing _ _ _ _ _ _ _ _ E).
      unfold Sql.update. rewrite map_map, length_map.
      erewrite map_ext; [exact H2|].
      intros a. simpl. destruct (has_sid (hit_sid h) a); [apply touched_fixed | reflexivity].
    + rewrite (update_paths_absent _ _ _ _ _ _ _ E).
      apply keys_snoc; [exact H2 | reflexivity].
  - now apply update_paths_unique.
  - rewrite map_app, map_call_sid_update_paths. simpl. intros Hin.
    apply in_app_or in Hin.
    destruct (Sql.fetchone (has_sid (hit_sid h)) (ivr_paths db)) as [r|] eqn:E.
    + destruct Hin as [Hin|[<-|[]]]; [now apply H4|].
      apply fetchone_in. eauto.
    + apply in_or_app. destruct Hin as [Hin|Hin]; [left; now apply H4 | now right].
  - rewrite map_app, map_call_sid_update_paths. simpl. intros Hin.
    apply in_or_app.
    destruct (Sql.fetchone (has_sid (hit_sid h)) (ivr_paths db)) as [r|] eqn:E.
    + left. now apply H4.
    + apply in_app_or in Hin. destruct Hin as [Hin|Hin]; [left; now apply H4 | now right].
Qed.

Lemma serve_all_tables_ok hs db : tables_ok db -> tables_ok (serve_all hs db).
Proof.
  revert db. induction hs as [|h hs IH]; intros db H; [exact H|].
  simpl. apply IH, serve_tables_ok, H.
Qed.

Lemma init_tables_ok : tables_ok init_database.
Proof. repeat split; simpl; try constructor; intros []. Qed.

(** X5: in every store built by requests from the empty one, as
    [IVRDatabase.init_database] creates it, the primary keys of both tables
    are 1, 2, ..., in insertion order, and no two path records share a call
    identifier. *)
Theorem keys_consecutive_and_unique :
  forall hs,
    let db := serve_all hs init_database in
    map in_id (ivr_inputs db) = map Z.of_nat (seq 1 (length (ivr_inputs db))) /\
    map id (ivr_paths db) = map Z.of_nat (seq 1 (length (ivr_paths db))) /\
    NoDup (map call_sid (ivr_paths db)).
Proof.
  intros hs db.
  destruct (serve_all_tables_ok hs init_database init_tables_ok) as (H1 & H2 & H3 & _).
  repeat split; assumption.
Qed.

(** X6: in every store built by requests from the empty one a call has a
    path record exactly when the raw log holds an event of that call, and the
    number of distinct calls in the raw log, which [get_ivr_stats] reports as
    [total_calls], is the number of path records. *)
Theorem record_iff_logged :
  forall hs,
    let db := serve_all hs init_database in
    (forall sid, (exists r, get sid db = Some r) <->
                 In sid (map in_call_sid (ivr_inputs db))) /\
    total_calls db = length (ivr_paths db).
Proof.
  intros hs db.
  destruct (serve_all_tables_ok hs init_database init_tables_ok) as (_ & _ & H3 & H4).
  fold db in H3, H4. split.
  - intros sid. unfold get. rewrite fetchone_in. symmetry. apply H4.
  - unfold total_calls. rewrite <- (length_map call_sid).
    apply Permutation_length, NoDup_Permutation.
    + apply NoDup_nodup.
    + exact H3.
    + intros sid. rewrite nodup_In. apply H4.
Qed.

Lemma serve_all_app hs hs' db : serve_all (hs ++ hs') db = serve_all hs' (serve_all hs db).
Proof. apply fold_left_app. Qed.

(** X7: the raw log is append-only and complete: after any requests the old
    rows are still there, in place, followed by one row per accepted request,
    in arrival order, with its call identifier, step name and cleaned digit;
    a request without call identifier leaves no row. *)
Theorem raw_log_append_only :
  forall hs db,
    exists rows,
      ivr_inputs (serve_all hs db) = (ivr_inputs db ++ rows)%list /\
      map (fun i => (in_call_sid i, in_step_name i, in_digit_input i)) rows =
      map (fun h => (hit_sid h, hit_step h, clean (param (hit_req h) "digits")))
          (filter accepted hs).
Proof.
  intros hs. induction hs as [|h hs IH] using rev_ind; intros db.
  - exists []. split; [now rewrite app_nil_r | reflexivity].
  - destruct (IH db) as (rows & H1 & H2).
    rewrite serve_all_app. simpl. rewrite serve_unfold, filter_app. simpl.
    destruct (accepted h).
    + eexists. simpl. rewrite H1, <- app_assoc. split; [reflexivity|].
      rewrite !map_app, H2. reflexivity.
    + exists rows. split; [exact H1|]. now rewrite app_nil_r.
Qed.

(** ** Cleaning of the digits *)

Lemma truthy_cons a s : Py.truthy (Some (String a s)) = true.
Proof. reflexivity. Qed.

(** X8: cleaning removes the quotes around a digit string: for digits that
    contain no quote character, the plain form, the form wrapped in double
    quotes and the form wrapped in single quotes are all cleaned to the
    digits themselves. *)
Theorem clean_removes_surrounding_quotes :
  forall s,
    no_char dquote s = true -> no_char squote s = true ->
    clean (Some s) = Some s /\
    clean (Some (String dquote (s ++ String dquote ""))) = Some s /\
    clean (Some (String squote (s ++ String squote ""))) = Some s.
Proof.
  intros s Hd Hs. unfold clean. split; [|split].
  - destruct (Py.truthy (Some s)); [|reflexivity].
    now rewrite (strip_id dquote s Hd), (strip_id squote s Hs).
  - rewrite truthy_cons.
    now rewrite (strip_wrapped dquote s Hd), (strip_id squote s Hs).
  - rewrite truthy_cons, (strip_id dquote).
    + now rewrite (strip_wrapped squote s Hs).
    + simpl. rewrite no_char_app, Hd. reflexivity.
Qed.

Lemma clean_removes_surrounding_quotes_witness :
  clean (Some (String squote ("42" ++ String squote ""))) = Some "42".
Proof.
  refine (proj2 (proj2 (clean_removes_surrounding_quotes "42" _ _))); reflexivity.
Defined.

(** ** The stored path and the decoder *)

Lemma split_app_sep sep a b :
  no_char sep a = true ->
  Py.split sep (a ++ String sep b) = a :: Py.split sep b.
Proof.
  induction a as [|x a IH]; simpl.
  - intros _. now rewrite Ascii.eqb_refl.
  - intros H. apply andb_true_iff in H. destruct H as [Hx Ha].
    apply negb_true_iff in Hx. now rewrite Hx, (IH Ha).
Qed.

Lemma split_no_sep sep a : no_char sep a = true -> Py.split sep a = [a].
Proof.
  induction a as [|x a IH]; simpl; [reflexivity|].
  intros H. apply andb_true_iff in H. destruct H as [Hx Ha].
  apply negb_true_iff in Hx. now rewrite Hx, (IH Ha).
Qed.

(** X9: when no stored choice contains the delimiter, splitting the stored
    path gives back the five choices, unset ones as empty segments, so the
    decoder works on exactly the stored choices. *)
Theorem stored_path_splits_into_choices :
  forall r,
    path_ok r ->
    Forall (fun c => no_char "-" (Sql.coalesce c) = true) (choices r) ->
    option_map (Py.split "-") (complete_path r) = Some (map Sql.coalesce (choices r)) /\
    get_ivr_label (complete_path r) =
      Py.join " → " (get_ivr_tokens (map Sql.coalesce (choices r))).
Proof.
  intros r Hok Hc. unfold path_ok in Hok. rewrite Hok.
  unfold choices in *.
  inversion Hc as [|? ? H1 Hc1]; subst. inversion Hc1 as [|? ? H2 Hc2]; subst.
  inversion Hc2 as [|? ? H3 Hc3]; subst. inversion Hc3 as [|? ? H4 Hc4]; subst.
  inversion Hc4 as [|? ? H5 _]; subst.
  assert (E : Py.split "-" (join_choices
                [language_choice r; state_choice r; service_choice r;
                 model_choice r; hp_choice r]) =
              map Sql.coalesce [language_choice r; state_choice r; service_choice r;
                                model_choice r; hp_choice r]).
  { unfold join_choices, Py.join. simpl String.concat.
    change (fun s => String "-" s) with (String "-").
    repeat (match goal with
            | |- context [(?a ++ String "-" ?b)%string] =>
                rewrite (split_app_sep "-" a b) by assumption
            end).
    now rewrite split_no_sep. }
  split.
  - simpl. now rewrite E.
  - unfold get_ivr_label. rewrite E.
    destruct (Py.truthy _) eqn:T; [reflexivity|].
    exfalso. simpl in T. apply negb_false_iff, String.eqb_eq in T.
    unfold join_choices, Py.join in T. simpl in T.
    destruct (Sql.coalesce (language_choice r)); discriminate.
Qed.

Lemma stored_path_splits_into_choices_witness :
  let db := run [mk_event 1 "CA1" "language" (Some "2") None None;
                 mk_event 2 "CA1" "service" (Some "2") None None] init_database in
  exists r, get "CA1" db = Some r /\
            option_map (Py.split "-") (complete_path r) = Some ["2"; ""; "2"; ""; ""].
Proof.
  intros db. eexists. split; [reflexivity|].
  refine (proj1 (stored_path_splits_into_choices _ _ _)).
  - reflexivity.
  - repeat constructor.
Defined.

Ltac string_tests :=
  repeat match goal with
         | |- context [String.eqb ?x ?k] => destruct (String.eqb x k)
         end.

(** X10: the decoder reads at most the first five segments, and decoding a
    path cut after any number of segments gives a prefix of the tokens of the
    whole path. *)
Theorem decode_prefix :
  forall parts,
    get_ivr_tokens parts = get_ivr_tokens (firstn 5 parts) /\
    forall k, exists rest,
      get_ivr_tokens parts = (get_ivr_tokens (firstn k parts) ++ rest)%list.
Proof.
  intros parts. split.
  - destruct parts as [|a [|b [|c [|d [|e rest]]]]]; reflexivity.
  - intros k. unfold get_ivr_tokens.
    destruct parts as [|a [|b [|c [|d [|e rest]]]]];
      destruct k as [|[|[|[|[|k]]]]];
      cbn [firstn length Nat.leb nth andb app];
      string_tests; cbn [app andb]; eexists; reflexivity.
Qed.

Lemma concat_head_nonempty sep a s l : String.concat sep (String a s :: l) <> "".
Proof. destruct l; simpl; discriminate. Qed.

Lemma dict_get_nonempty d k a s :
  Forall (fun kv => snd kv <> "") d -> Py.dict_get d k (String a s) <> "".
Proof.
  unfold Py.dict_get. induction 1 as [|[k' v] d Hv _ IH]; simpl; [discriminate|].
  destruct (k' =? k); [exact Hv | exact IH].
Qed.

Lemma append_empty s : s ++ "" = s.
Proof. induction s as [|a s IH]; simpl; [reflexivity | now rewrite IH]. Qed.

Lemma join_head sep t ts : exists rest, String.concat sep (t :: ts) = t ++ rest.
Proof.
  destruct ts as [|u ts]; simpl.
  - exists "". now rewrite append_empty.
  - now eexists.
Qed.

Lemma first_token a parts :
  exists ts,
    get_ivr_tokens (a :: parts) =
    Py.dict_get [("1", "Hindi"); ("2", "English")] a ("Lang-" ++ a) :: ts.
Proof.
  unfold get_ivr_tokens.
  destruct parts as [|b [|c [|d [|e rest]]]];
    cbn [length Nat.leb nth andb app];
    string_tests; cbn [app andb]; eexists; reflexivity.
Qed.

Lemma language_token seg :
  Py.dict_get [("1", "Hindi"); ("2", "English")] seg ("Lang-" ++ seg) =
  if seg =? "1" then "Hindi" else if seg =? "2" then "English" else "Lang-" ++ seg.
Proof.
  unfold Py.dict_get. cbn [Py.lookup].
  rewrite (String.eqb_sym "1" seg), (String.eqb_sym "2" seg).
  destruct (seg =? "1"); [reflexivity|]. destruct (seg =? "2"); reflexivity.
Qed.

(** X11: the decoder never returns the empty label: a missing or empty path
    gives [No IVR], and any other path gives a label that starts with the
    token of its first segment, [Hindi] for ["1"], [English] for ["2"] and
    [Lang-] followed by the segment otherwise, which is never empty. *)
Theorem label_never_empty :
  forall path,
    get_ivr_label path <> "" /\
    (Py.truthy path = false -> get_ivr_label path = "No IVR") /\
    (forall s, path = Some s -> s <> "" ->
       exists seg segs rest,
         Py.split "-" s = seg :: segs /\
         get_ivr_label path =
           (if seg =? "1" then "Hindi"
            else if seg =? "2" then "English" else "Lang-" ++ seg) ++ rest /\
         (if seg =? "1" then "Hindi"
          else if seg =? "2" then "English" else "Lang-" ++ seg) <> "").
Proof.
  intros path.
  assert (Hne : forall seg,
             (if seg =? "1" then "Hindi"
              else if seg =? "2" then "English" else "Lang-" ++ seg) <> "").
  { intros seg. destruct (seg =? "1"); [discriminate|].
    destruct (seg =? "2"); discriminate. }
  assert (H3 : forall s, path = Some s -> s <> "" ->
             exists seg segs rest,
               Py.split "-" s = seg :: segs /\
               get_ivr_label path =
                 (if seg =? "1" then "Hindi"
                  else if seg =? "2" then "English" else "Lang-" ++ seg) ++ rest).
  { intros s -> Hs. unfold get_ivr_label. rewrite (truthy_sid s Hs).
    destruct (Py.split "-" s) as [|seg segs] eqn:E; [now apply split_not_nil in E|].
    destruct (first_token seg segs) as [ts Ht]. rewrite Ht, language_token.
    destruct (join_head " → " (if seg =? "1" then "Hindi"
                                else if seg =? "2" then "English"
                                else "Lang-" ++ seg) ts) as [rest Hr].
    exists seg, segs, rest. split; [reflexivity | exact Hr]. }
  split; [|split].
  - destruct path as [s|]; [|discriminate].
    destruct (String.eqb_spec s "") as [->|Hs]; [discriminate|].
    destruct (H3 s eq_refl Hs) as (seg & segs & rest & _ & ->).
    specialize (Hne seg).
    destruct (if seg =? "1" then "Hindi"
              else if seg =? "2" then "English" else "Lang-" ++ seg);
      [contradiction | discriminate].
  - intros H. unfold get_ivr_label. destruct path as [s|]; [|reflexivity].
    now rewrite H.
  - intros s Hp Hs. destruct (H3 s Hp Hs) as (seg & segs & rest & E1 & E2).
    exists seg, segs, rest. repeat split; try assumption. apply Hne.
Qed.

Lemma label_never_empty_witness :
  exists rest, get_ivr_label (Some "7-1") = "Lang-7" ++ rest.
Proof.
  destruct (proj2 (proj2 (label_never_empty (Some "7-1"))) "7-1" eq_refl)
    as (seg & segs & rest & E1 & E2 & _); [discriminate|].
  exists rest. injection E1 as <- _. exact E2.
Defined.

Lemma split_length_app sep a b :
  length (Py.split sep (a ++ String sep b)) =
  length (Py.split sep a) + length (Py.split sep b).
Proof.
  induction a as [|x a IH]; simpl.
  - now rewrite Ascii.eqb_refl.
  - destruct (Ascii.eqb x sep); simpl; [now rewrite IH|].
    destruct (Py.split sep (a ++ String sep b)) eqn:E1; [now apply split_not_nil in E1|].
    destruct (Py.split sep a) eqn:E2; [now apply split_not_nil in E2|].
    exact IH.
Qed.

Lemma split_length_pos sep a : 1 <= length (Py.split sep a).
Proof.
  destruct (Py.split sep a) eqn:E; [now apply split_not_nil in E | simpl; lia].
Qed.

(** X12: every stored path has at least five segments, so the decoder
    always gives between three and five tokens for it, the three tokens of
    language, state and service even when nothing was chosen. *)
Theorem stored_path_decodes_to_three_tokens :
  forall r,
    path_ok r ->
    exists s,
      complete_path r = Some s /\
      5 <= length (Py.split "-" s) /\
      3 <= length (get_ivr_tokens (Py.split "-" s)) <= 5.
Proof.
  intros r Hok. unfold path_ok in Hok. eexists. split; [exact Hok|].
  assert (H5 : 5 <= length (Py.split "-" (join_choices (choices r)))).
  { unfold join_choices, Py.join, choices. simpl String.concat.
    rewrite !split_length_app.
    pose proof (split_length_pos "-" (Sql.coalesce (language_choice r))).
    pose proof (split_length_pos "-" (Sql.coalesce (state_choice r))).
    pose proof (split_length_pos "-" (Sql.coalesce (service_choice r))).
    pose proof (split_length_pos "-" (Sql.coalesce (model_choice r))).
    pose proof (split_length_pos "-" (Sql.coalesce (hp_choice r))).
    lia. }
  split; [exact H5|].
  destruct (Py.split "-" (join_choices (choices r))) as [|a [|b [|c [|d [|e rest]]]]];
    simpl in H5; try lia.
  unfold get_ivr_tokens. cbn [length Nat.leb nth andb app].
  string_tests; cbn [app andb length]; lia.
Qed.

Lemma stored_path_decodes_to_three_tokens_witness :
  let db := run [mk_event 1 "CA1" "menu" None None None] init_database in
  exists r s, get "CA1" db = Some r /\ complete_path r = Some s /\
              3 <= length (get_ivr_tokens (Py.split "-" s)).
Proof.
  intros db. eexists.
  destruct (stored_path_decodes_to_three_tokens
              (set_complete_path (new_row 1 [] "CA1" "menu" None None None)))
    as (s & H1 & _ & H3 & _); [reflexivity|].
  exists s. split; [reflexivity|]. split; [exact H1 | exact H3].
Defined.

(** ** Reading the path table *)

Lemma insert_desc_sorted r l :
  StronglySorted newer l -> StronglySorted newer (insert_desc r l).
Proof.
  induction 1 as [|x l Hl IH Hx]; simpl.
  - repeat constructor.
  - destruct (timestamp x <=? timestamp r)%Z eqn:E.
    + apply Z.leb_le in E. constructor; [now constructor|].
      constructor; [exact E|].
      eapply Forall_impl; [|exact Hx]. unfold newer. intros; lia.
    + apply Z.leb_gt in E. constructor; [exact IH|].
      rewrite <- insert_desc_perm. constructor; [unfold newer; lia | exact Hx].
Qed.

Lemma order_by_timestamp_desc_sorted t : StronglySorted newer (order_by_timestamp_desc t).
Proof.
  induction t as [|x t IH]; simpl; [constructor | now apply insert_desc_sorted].
Qed.

Lemma filter_all {A : Type} (p : A -> bool) (l : list A) :
  (forall a, p a = true) -> filter p l = l.
Proof.
  intros H. induction l as [|a l IH]; simpl; [reflexivity|]. now rewrite H, IH.
Qed.

(** X13: [get_ivr_paths] returns the records whose day lies within the
    bounds, each exactly once, newest first; a bound that is missing or empty
    does not restrict, so without bounds every record is returned. *)
Theorem get_ivr_paths_newest_first :
  forall DATE start_date end_date db,
    (exists rows,
        get_ivr_paths_between DATE start_date end_date db = map to_row rows /\
        StronglySorted newer rows /\
        Permutation rows (filter (in_bounds DATE start_date end_date) (ivr_paths db))) /\
    get_ivr_paths_between DATE None None db = get_ivr_paths db /\
    get_ivr_paths_between DATE (Some "") (Some "") db = get_ivr_paths db /\
    (exists rows,
        get_ivr_paths db = map to_row rows /\
        StronglySorted newer rows /\ Permutation rows (ivr_paths db)).
Proof.
  intros DATE start_date end_date db. repeat split.
  - eexists. split; [reflexivity|]. split.
    + apply order_by_timestamp_desc_sorted.
    + apply Permutation_sym, order_by_timestamp_desc_perm.
  - unfold get_ivr_paths_between, get_ivr_paths. now rewrite filter_all.
  - unfold get_ivr_paths_between, get_ivr_paths. now rewrite filter_all.
  - eexists. split; [reflexivity|]. split.
    + apply order_by_timestamp_desc_sorted.
    + apply Permutation_sym, order_by_timestamp_desc_perm.
Qed.

Lemma traverse_none {A B : Type} (f : A -> option B) (l : list A) (a : A) :
  In a l -> f a = None -> Pd.traverse f l = None.
Proof.
  intros Hin Ha. induction l as [|x l IH]; [contradiction|].
  simpl. destruct Hin as [->|Hin].
  - now rewrite Ha.
  - rewrite (IH Hin). destruct (f x); reflexivity.
Qed.

Lemma has_column_row df r k :
  well_formed df -> In r (rows df) -> Pd.has_column df k = Pd.has_col r k.
Proof.
  unfold well_formed. rewrite Forall_forall. intros Hwf Hin.
  unfold Pd.has_column, Pd.has_col. now rewrite (Hwf r Hin).
Qed.

Lemma has_col_get (r : row) k : Pd.get r k = None -> Pd.has_col r k = false.
Proof.
  unfold Pd.get, Pd.has_col. induction r as [|[k' v] r IH]; simpl; [reflexivity|].
  rewrite (String.eqb_sym k k'). destruct (k' =? k); [discriminate | exact IH].
Qed.

(** X14: a call frame that lacks the [CallSid] column makes the merge fail
    with the [KeyError] as soon as the path table has a record, whether the
    frame has rows or not; with an empty path table the merge does not look
    at [CallSid] and returns every call row with both derived columns
    null. *)
Theorem merge_needs_call_sid :
  forall db call_df,
    (ivr_paths db = [] ->
     merge_with_call_data db call_df =
     Some (mk_frame (Pd.add_label "IVRSelections"
                                  (Pd.add_label "IVRPath" (columns call_df)))
                    (map (fun r => Pd.set_col "IVRSelections" Null
                                     (Pd.set_col "IVRPath" Null r))
                         (rows call_df)))) /\
    (ivr_paths db <> [] -> Pd.has_column call_df "CallSid" = false ->
     merge_with_call_data db call_df = None) /\
    (forall r, well_formed call_df ->
               ivr_paths db <> [] -> In r (rows call_df) -> Pd.get r "CallSid" = None ->
               merge_with_call_data db call_df = None).
Proof.
  intros db call_df.
  assert (Hnone : ivr_paths db <> [] -> Pd.has_column call_df "CallSid" = false ->
                  merge_with_call_data db call_df = None).
  { intros Hne Hcol. unfold merge_with_call_data.
    destruct (get_ivr_paths db) as [|x l] eqn:E.
    - unfold get_ivr_paths in E.
      apply map_eq_nil, order_by_timestamp_desc_nil in E. contradiction.
    - unfold Pd.merge_left. now rewrite Hcol. }
  split; [|split].
  - intros E. unfold merge_with_call_data, get_ivr_paths. rewrite E.
    unfold Pd.assign. simpl. now rewrite map_map.
  - exact Hnone.
  - intros r Hwf Hne Hin Hget. apply Hnone; [exact Hne|].
    rewrite (has_column_row call_df r "CallSid" Hwf Hin). now apply has_col_get.
Qed.

Lemma merge_needs_call_sid_witness :
  let db := run [mk_event 1 "CA1" "language" (Some "1") None None] init_database in
  merge_with_call_data db (mk_frame ["Sid"; "Status"]
                                    [[("Sid", Str "CA1"); ("Status", Str "completed")]]) = None /\
  merge_with_call_data db (mk_frame ["Sid"; "Status"] []) = None /\
  merge_with_call_data init_database (mk_frame ["Sid"] [[("Sid", Str "CA1")]]) =
    Some (mk_frame ["Sid"; "IVRPath"; "IVRSelections"]
                   [[("Sid", Str "CA1"); ("IVRPath", Null); ("IVRSelections", Null)]]).
Proof.
  intros db. split; [|split].
  - refine (proj2 (proj2 (merge_needs_call_sid db _)) _ _ _ _ _);
      [repeat constructor | discriminate | left; reflexivity | reflexivity].
  - refine (proj1 (proj2 (merge_needs_call_sid db _)) _ _);
      [discriminate | reflexivity].
  - refine (proj1 (merge_needs_call_sid init_database _) _). reflexivity.
Defined.

(** The other two ways the merge can stop: a numeric [CallSid] column against
    the text of [call_sid] is refused by pandas unless one side is empty,
    and a list in the key column cannot be hashed. *)
Example merge_refuses_other_keys :
  let db := run [mk_event 1 "CA1" "language" (Some "1") None None] init_database in
  merge_with_call_data db (mk_frame ["CallSid"] [[("CallSid", Num 7)]]) = None /\
  merge_with_call_data db (mk_frame ["CallSid"] [[("CallSid", Num 7)]; [("CallSid", Null)]])
    = None /\
  merge_with_call_data db (mk_frame ["CallSid"] [[("CallSid", Lst [])]]) = None /\
  merge_with_call_data db (mk_frame ["CallSid"] []) =
    Some (mk_frame ["CallSid"; "IVRPath"; "IVRSelections"] []) /\
  merge_with_call_data init_database (mk_frame ["CallSid"] [[("CallSid", Num 7)]]) =
    Some (mk_frame ["CallSid"; "IVRPath"; "IVRSelections"]
                   [[("CallSid", Num 7); ("IVRPath", Null); ("IVRSelections", Null)]]).
Proof. repeat split. Qed.

Lemma other_calls_untouched_witness :
  let db := run [mk_event 1 "CA1" "language" (Some "1") None None;
                 mk_event 2 "CA2" "language" (Some "2") None None] init_database in
  get "CA1" (update_ivr_path 3 "CA2" "state" (Some "4") None None db) = get "CA1" db.
Proof.
  intros db.
  refine (proj1 (other_calls_untouched 3 "CA2" "state" (Some "4") None None db) "CA1" _).
  discriminate.
Defined.

(** ** The funnel and completion charts *)

Lemma selections_ok_get r : selections_ok r = true -> Pd.get r "IVRSelections" <> None.
Proof. unfold selections_ok. destruct (Pd.get r "IVRSelections"); [discriminate | discriminate]. Qed.

Lemma where_notna_total df :
  Pd.has_column df "IVRSelections" = true ->
  where_notna "IVRSelections" df =
    Some (mk_frame (columns df) (filter has_selections (rows df))) /\
  where_isna "IVRSelections" df =
    Some (mk_frame (columns df) (filter (fun r => negb (has_selections r)) (rows df))).
Proof. intros H. unfold where_notna, where_isna. rewrite H. split; reflexivity. Qed.

Lemma py_len_selection r :
  selections_ok r = true -> has_selections r = true ->
  py_len (Pd.row_get r "IVRSelections") = Some (selection_count r).
Proof.
  unfold selections_ok, has_selections, selection_count, Pd.row_get.
  destruct (Pd.get r "IVRSelections") as [[| | |]|]; simpl; try discriminate; reflexivity.
Qed.

Lemma count_where_len_total test cols data :
  existsb (String.eqb "IVRSelections") cols = true ->
  Forall (fun r => selections_ok r = true /\ has_selections r = true) data ->
  count_where_len "IVRSelections" test (mk_frame cols data) =
  Some (length (filter (fun r => test (selection_count r)) data)).
Proof.
  intros Hc H. unfold count_where_len, Pd.has_column. cbn [columns rows]. rewrite Hc.
  rewrite (traverse_total _ (fun r => test (selection_count r))).
  - f_equal. clear H. induction data as [|r data IH]; simpl; [reflexivity|].
    destruct (test (selection_count r)); simpl; now rewrite IH.
  - eapply Forall_impl; [|exact H]. intros r [H1 H2].
    now rewrite py_len_selection.
Qed.

Lemma filter_has_selections df :
  Forall (fun r => selections_ok r = true) df ->
  Forall (fun r => selections_ok r = true /\ has_selections r = true)
         (filter has_selections df).
Proof.
  intros H. rewrite Forall_forall in *. intros r Hr.
  apply filter_In in Hr. destruct Hr as [Hin Hs]. split; [now apply H | exact Hs].
Qed.

Lemma create_ivr_funnel_total df :
  Pd.has_column df "IVRSelections" = true ->
  Forall (fun r => selections_ok r = true) (rows df) ->
  create_ivr_funnel df =
  Some (if (length (filter has_selections (rows df)) =? 0)%nat then no_ivr_data
        else Funnel "IVR Navigation Funnel"
                    ["Entered IVR"; "Level 1 Selection";
                     "Level 2 Selection"; "Level 3 Selection"]
                    [length (filter has_selections (rows df));
                     reached 1 (rows df); reached 2 (rows df); reached 3 (rows df)]).
Proof.
  intros Hc H. unfold create_ivr_funnel.
  rewrite (proj1 (where_notna_total df Hc)). cbn [rows].
  destruct (length (filter has_selections (rows df)) =? 0)%nat; [reflexivity|].
  now rewrite !count_where_len_total by (try exact Hc; now apply filter_has_selections).
Qed.

Lemma filter_length_le {A : Type} (p q : A -> bool) (l : list A) :
  (forall a, p a = true -> q a = true) ->
  length (filter p l) <= length (filter q l).
Proof.
  intros H. induction l as [|a l IH]; simpl; [lia|].
  destruct (p a) eqn:E.
  - rewrite (H a E). simpl. lia.
  - destruct (q a); simpl; lia.
Qed.

(** X15: on a frame that has the [IVRSelections] column, with cells that are
    null or hold a list or a text, the funnel chart is always produced; it
    shows the calls that have selections and, of these, the calls with at
    least one, two and three selections (the items of a list, the characters
    of a text), and these four numbers never increase from one level to the
    next. *)
Theorem funnel_levels_never_increase :
  forall data,
    Pd.has_column data "IVRSelections" = true ->
    Forall (fun r => selections_ok r = true) (rows data) ->
    let df := rows data in
    create_ivr_funnel data =
      Some (if (length (filter has_selections df) =? 0)%nat then no_ivr_data
            else Funnel "IVR Navigation Funnel"
                        ["Entered IVR"; "Level 1 Selection";
                         "Level 2 Selection"; "Level 3 Selection"]
                        [length (filter has_selections df);
                         reached 1 df; reached 2 df; reached 3 df]) /\
    reached 3 df <= reached 2 df /\ reached 2 df <= reached 1 df /\
    reached 1 df <= length (filter has_selections df).
Proof.
  intros data Hc H df. split; [now apply create_ivr_funnel_total|].
  unfold reached. repeat split.
  - apply filter_length_le. intros r Hr.
    apply Nat.leb_le in Hr. apply Nat.leb_le. lia.
  - apply filter_length_le. intros r Hr.
    apply Nat.leb_le in Hr. apply Nat.leb_le. lia.
  - rewrite <- (filter_all (fun _ => true) (filter has_selections df)) at 2
      by reflexivity.
    apply filter_length_le. reflexivity.
Qed.

Lemma funnel_levels_never_increase_witness :
  create_ivr_funnel
    (mk_frame ["CallSid"; "IVRSelections"]
       [[("CallSid", Str "CA1"); ("IVRSelections", Lst [Str "1"; Str "2"])];
        [("CallSid", Str "CA2"); ("IVRSelections", Lst [])];
        [("CallSid", Str "CA3"); ("IVRSelections", Null)];
        [("CallSid", Str "CA4"); ("IVRSelections", Str "é")]]) =
  Some (Funnel "IVR Navigation Funnel"
               ["Entered IVR"; "Level 1 Selection";
                "Level 2 Selection"; "Level 3 Selection"]
               [3; 2; 1; 0]).
Proof.
  refine (proj1 (funnel_levels_never_increase _ _ _));
    [reflexivity | repeat constructor].
Defined.

Lemma filter_split_length {A : Type} (p : A -> bool) (l : list A) :
  length (filter p l) + length (filter (fun a => negb (p a)) l) = length l.
Proof.
  induction l as [|a l IH]; simpl; [reflexivity|].
  destruct (p a); simpl; lia.
Qed.

Lemma create_ivr_completion_rate_total df :
  Pd.has_column df "IVRSelections" = true ->
  Forall (fun r => selections_ok r = true) (rows df) ->
  create_ivr_completion_rate df =
  Some (if (length (filter has_selections (rows df)) =? 0)%nat then no_ivr_data
        else Bar "IVR Completion Analysis"
                 ["Completed IVR"; "Dropped Early"; "No IVR Interaction"]
                 [reached 2 (rows df);
                  length (filter (fun r => (selection_count r <? 2)%nat)
                                 (filter has_selections (rows df)));
                  length (filter (fun r => negb (has_selections r)) (rows df))]).
Proof.
  intros Hc H. unfold create_ivr_completion_rate.
  destruct (where_notna_total df Hc) as [-> ->]. cbn [rows].
  destruct (length (filter has_selections (rows df)) =? 0)%nat; [reflexivity|].
  now rewrite !count_where_len_total by (try exact Hc; now apply filter_has_selections).
Qed.

(** X16: on such a frame the completion chart is always produced; its
    three bars (at least two selections, fewer than two, no selections at
    all, counting the items of a list and the characters of a text) add up
    to the number of calls, and the first bar is the funnel's second
    level. *)
Theorem completion_bars_partition_calls :
  forall data,
    Pd.has_column data "IVRSelections" = true ->
    Forall (fun r => selections_ok r = true) (rows data) ->
    let df := rows data in
    let dropped := length (filter (fun r => (selection_count r <? 2)%nat)
                                  (filter has_selections df)) in
    let no_ivr := length (filter (fun r => negb (has_selections r)) df) in
    create_ivr_completion_rate data =
      Some (if (length (filter has_selections df) =? 0)%nat then no_ivr_data
            else Bar "IVR Completion Analysis"
                     ["Completed IVR"; "Dropped Early"; "No IVR Interaction"]
                     [reached 2 df; dropped; no_ivr]) /\
    reached 2 df + dropped + no_ivr = length df.
Proof.
  intros data Hc H df dropped no_ivr.
  split; [now apply create_ivr_completion_rate_total|].
  pose proof (filter_split_length has_selections df) as A.
  pose proof (filter_split_length (fun r => (2 <=? selection_count r)%nat)
                                  (filter has_selections df)) as B.
  assert (E : filter (fun r => negb (2 <=? selection_count r)%nat)
                     (filter has_selections df) =
              filter (fun r => (selection_count r <? 2)%nat)
                     (filter has_selections df)).
  { apply filter_ext. intros r. unfold Nat.ltb.
    destruct (Nat.leb_spec 2 (selection_count r));
      destruct (Nat.leb_spec (S (selection_count r)) 2); simpl; try reflexivity; lia. }
  cbv beta in B. rewrite E in B. unfold reached, dropped, no_ivr. lia.
Qed.

Lemma completion_bars_partition_calls_witness :
  create_ivr_completion_rate
    (mk_frame ["CallSid"; "IVRSelections"]
       [[("CallSid", Str "CA1"); ("IVRSelections", Lst [Str "1"; Str "2"])];
        [("CallSid", Str "CA2"); ("IVRSelections", Lst [])];
        [("CallSid", Str "CA3"); ("IVRSelections", Null)];
        [("CallSid", Str "CA4"); ("IVRSelections", Str "é")]]) =
  Some (Bar "IVR Completion Analysis"
            ["Completed IVR"; "Dropped Early"; "No IVR Interaction"]
            [1; 2; 1]).
Proof.
  refine (proj1 (completion_bars_partition_calls _ _ _));
    [reflexivity | repeat constructor].
Defined.

(** ** From the store to the charts *)

Lemma partner_in db r p : partner db r = Some p -> In p (ivr_paths db).
Proof.
  unfold partner. destruct (Pd.get r "CallSid") as [[|sid| |]|]; try discriminate.
  unfold get, Sql.fetchone. intros H. now apply find_some in H.
Qed.

Lemma ivr_selections_of_stored db r :
  Forall path_ok (ivr_paths db) ->
  ivr_selections_of db r =
  match partner db r with
  | Some p => Lst (set_choices p)
  | None => Null
  end.
Proof.
  intros Hok. unfold ivr_selections_of.
  destruct (partner db r) as [p|] eqn:E; [|reflexivity].
  rewrite Forall_forall in Hok. specialize (Hok p (partner_in db r p E)).
  unfold path_ok in Hok. now rewrite Hok.
Qed.

Lemma row_get_selections db r :
  Pd.row_get (with_ivr_columns db r) "IVRSelections" = ivr_selections_of db r.
Proof.
  unfold Pd.row_get. now rewrite (proj2 (proj2 (with_ivr_columns_get db r))).
Qed.

Lemma merged_row_facts db r :
  Forall path_ok (ivr_paths db) ->
  selections_ok (with_ivr_columns db r) = true /\
  has_selections (with_ivr_columns db r) =
    match partner db r with Some _ => true | None => false end /\
  selection_count (with_ivr_columns db r) =
    match set_count db r with Some k => k | None => 0 end.
Proof.
  intros Hok. unfold selections_ok, has_selections, selection_count, set_count.
  rewrite row_get_selections.
  rewrite (proj2 (proj2 (with_ivr_columns_get db r))).
  rewrite (ivr_selections_of_stored db r Hok).
  destruct (partner db r); repeat split.
Qed.

Lemma filter_filter {A : Type} (p q : A -> bool) (l : list A) :
  filter q (filter p l) = filter (fun a => p a && q a) l.
Proof.
  induction l as [|a l IH]; simpl; [reflexivity|].
  destruct (p a); simpl; [destruct (q a)|]; now rewrite IH.
Qed.

Lemma reached_merged db call_df level :
  Forall path_ok (ivr_paths db) ->
  reached level (map (with_ivr_columns db) call_df) = calls_at_least db level call_df.
Proof.
  intros Hok. unfold reached, calls_at_least.
  rewrite filter_map_comm, filter_map_comm, length_map, filter_filter.
  f_equal. apply filter_ext. intros r.
  destruct (merged_row_facts db r Hok) as (_ & H2 & H3).
  rewrite H2, H3. unfold set_count.
  destruct (partner db r); reflexivity.
Qed.

Lemma has_selections_merged db call_df :
  Forall path_ok (ivr_paths db) ->
  length (filter has_selections (map (with_ivr_columns db) call_df)) =
  calls_at_least db 0 call_df.
Proof.
  intros Hok. unfold calls_at_least.
  rewrite filter_map_comm, length_map. f_equal. apply filter_ext. intros r.
  destruct (merged_row_facts db r Hok) as (_ & H2 & _).
  rewrite H2. unfold set_count. destruct (partner db r); reflexivity.
Qed.

(** X17: the funnel drawn from the merge of a call frame with the store
    (a frame whose rows all carry its columns, with a [CallSid] column of
    text and no column named like a path column) counts, as calls that
    entered the IVR, the calls that have a path record, and at level n the
    calls whose record has at least n choices set; a call whose record has no
    choice set has entered but reached no level, and a call without record is
    not in the funnel. *)
Theorem funnel_of_merged_calls :
  forall db call_df,
    NoDup (map call_sid (ivr_paths db)) ->
    Forall path_ok (ivr_paths db) ->
    call_frame_ok call_df ->
    let calls := rows call_df in
    exists merged,
      merge_with_call_data db call_df = Some merged /\
      create_ivr_funnel merged =
        Some (if (calls_at_least db 0 calls =? 0)%nat then no_ivr_data
              else Funnel "IVR Navigation Funnel"
                          ["Entered IVR"; "Level 1 Selection";
                           "Level 2 Selection"; "Level 3 Selection"]
                          [calls_at_least db 0 calls; calls_at_least db 1 calls;
                           calls_at_least db 2 calls; calls_at_least db 3 calls]) /\
      calls_at_least db 0 calls + calls_without_record db calls = length calls.
Proof.
  intros db call_df Hnd Hok Hcols calls.
  exists (mk_frame (Pd.add_label "IVRSelections"
                                 (Pd.add_label "IVRPath" (columns call_df)))
                   (map (with_ivr_columns db) calls)).
  split; [|split].
  - now apply merge_with_call_data_spec.
  - rewrite create_ivr_funnel_total.
    + cbn [rows]. now rewrite has_selections_merged, !reached_merged.
    + unfold Pd.has_column, Pd.add_label. cbn [columns].
      destruct (existsb (String.eqb "IVRSelections")
                        (if existsb (String.eqb "IVRPath") (columns call_df)
                         then columns call_df
                         else (columns call_df ++ ["IVRPath"])%list)) eqn:E;
        [exact E|].
      rewrite existsb_app. simpl. apply orb_true_r.
    + cbn [rows]. apply Forall_map. apply Forall_forall. intros r _.
      apply (merged_row_facts db r Hok).
  - unfold calls_at_least, calls_without_record.
    pose proof (filter_split_length
                  (fun r => match set_count db r with
                            | Some k => (0 <=? k)%nat
                            | None => false
                            end) calls) as A.
    cbv beta in A. rewrite <- A. f_equal. f_equal.
    apply filter_ext. intros r. unfold set_count.
    destruct (partner db r); reflexivity.
Qed.

Lemma funnel_of_merged_calls_witness :
  let db := run [mk_event 1 "CA1" "language" (Some "2") None None;
                 mk_event 2 "CA1" "state" (Some "1") None None;
                 mk_event 3 "CA2" "menu" None None None] init_database in
  let call_df := mk_frame ["CallSid"]
                          [[("CallSid", Str "CA1")]; [("CallSid", Str "CA2")];
                           [("CallSid", Str "CA3")]] in
  exists merged,
    merge_with_call_data db call_df = Some merged /\
    create_ivr_funnel merged =
      Some (Funnel "IVR Navigation Funnel"
                   ["Entered IVR"; "Level 1 Selection";
                    "Level 2 Selection"; "Level 3 Selection"]
                   [2; 1; 1; 0]).
Proof.
  intros db call_df.
  destruct (funnel_of_merged_calls db call_df) as (merged & H1 & H2 & _).
  - simpl. repeat constructor; simpl; intuition discriminate.
  - repeat constructor.
  - unfold call_frame_ok, well_formed. simpl. repeat constructor.
  - exists merged. split; [exact H1 | exact H2].
Defined.

(** ** Events of different calls *)

Lemma get_upsert_other db e sid :
  sid <> ev_sid e -> get sid (upsert_step db e) = get sid db.
Proof.
  intros Hne. unfold get, upsert_step, Sql.fetchone. simpl.
  destruct (Sql.fetchone (has_sid (ev_sid e)) (ivr_paths db)) as [r|] eqn:E.
  - rewrite (update_paths_existing _ _ _ _ _ _ _ _ E).
    apply find_update_other.
    + intros a. now apply has_sid_other.
    + intros a Ha. rewrite has_sid_touched.
      destruct (has_sid sid a) eqn:E'; [|reflexivity].
      rewrite (has_sid_other (ev_sid e) sid a Hne E') in Ha. discriminate.
  - rewrite (update_paths_absent _ _ _ _ _ _ _ E).
    rewrite find_app. destruct (find (has_sid sid) (ivr_paths db)); [reflexivity|].
    simpl. unfold has_sid at 1. simpl.
    destruct (String.eqb_spec (ev_sid e) sid); [congruence | reflexivity].
Qed.

Lemma record_content_upsert db db' e :
  get (ev_sid e) db = get (ev_sid e) db' ->
  option_map record_content (get (ev_sid e) (upsert_step db e)) =
  option_map record_content (get (ev_sid e) (upsert_step db' e)).
Proof.
  intros H. rewrite !get_upsert_step, <- H.
  destruct (get (ev_sid e) db); reflexivity.
Qed.

(** X18: two events of different calls can be applied in either order: the
    record of every call then holds the same call identifier, numbers,
    choices and path (the primary key of a record created by one of them may
    differ). *)
Theorem events_of_different_calls_commute :
  forall db e1 e2 sid,
    ev_sid e1 <> ev_sid e2 ->
    option_map record_content (get sid (upsert_step (upsert_step db e1) e2)) =
    option_map record_content (get sid (upsert_step (upsert_step db e2) e1)).
Proof.
  intros db e1 e2 sid Hne.
  destruct (String.eqb_spec sid (ev_sid e1)) as [E1|E1];
    [|destruct (String.eqb_spec sid (ev_sid e2)) as [E2|E2]].
  - subst sid. rewrite (get_upsert_other _ e2) by assumption.
    apply record_content_upsert.
    symmetry. apply get_upsert_other. assumption.
  - subst sid. rewrite (get_upsert_other (upsert_step db e2) e1) by congruence.
    symmetry. apply record_content_upsert.
    symmetry. apply get_upsert_other. congruence.
  - now rewrite !get_upsert_other by assumption.
Qed.

Lemma events_of_different_calls_commute_witness :
  let e1 := mk_event 1 "CA1" "language" (Some "1") (Some "0123") None in
  let e2 := mk_event 2 "CA2" "state" (Some "3") None None in
  option_map record_content
             (get "CA1" (upsert_step (upsert_step init_database e1) e2)) =
  option_map record_content
             (get "CA1" (upsert_step (upsert_step init_database e2) e1)).
Proof.
  intros e1 e2. apply events_of_different_calls_commute. discriminate.
Defined.

(** ** utils.py *)

Example format_phone_number_indian :
  format_phone_number "+919876543210" = "+91 98765 43210".
Proof. reflexivity. Qed.

Example format_duration_samples :
  format_duration 45 = "45s" /\ format_duration 125 = "2m 5s" /\
  format_duration 3725 = "1h 2m".
Proof. repeat split. Qed.

Lemma take_skip_cont s : take_cont s ++ skip_cont s = s.
Proof.
  induction s as [|a s IH]; simpl; [reflexivity|].
  destruct (is_cont a); simpl; [now rewrite IH | reflexivity].
Qed.

Lemma string_app_assoc a b c : (a ++ b) ++ c = a ++ b ++ c.
Proof. induction a as [|x a IH]; simpl; [reflexivity | now rewrite IH]. Qed.

Lemma upto_from n s : py_upto n s ++ py_from n s = s.
Proof.
  revert s. induction n as [|n IH]; intros s; [reflexivity|].
  destruct s as [|a s]; [reflexivity|]. simpl.
  rewrite string_app_assoc, IH. now rewrite take_skip_cont.
Qed.

Lemma code_points_app a b : code_points (a ++ b) = code_points a + code_points b.
Proof. induction a as [|x a IH]; simpl; [reflexivity | rewrite IH; lia]. Qed.

Lemma code_points_take_cont s : code_points (take_cont s) = 0.
Proof.
  induction s as [|a s IH]; simpl; [reflexivity|].
  destruct (is_cont a) eqn:E; simpl; [now rewrite E, IH | reflexivity].
Qed.

Lemma code_points_skip_cont s : code_points (skip_cont s) = code_points s.
Proof.
  induction s as [|a s IH]; simpl; [reflexivity|].
  destruct (is_cont a) eqn:E; simpl; [exact IH | now rewrite E].
Qed.

Lemma whole_start_skip_cont s : whole_start (skip_cont s) = true.
Proof.
  induction s as [|a s IH]; simpl; [reflexivity|].
  destruct (is_cont a) eqn:E; simpl; [exact IH | now rewrite E].
Qed.

Lemma skip_cont_whole s : whole_start s = true -> skip_cont s = s.
Proof.
  destruct s as [|a s]; simpl; [reflexivity|].
  intros H. apply negb_true_iff in H. now rewrite H.
Qed.

Lemma code_points_upto n s :
  whole_start s = true -> code_points (py_upto n s) = Nat.min n (code_points s).
Proof.
  revert s. induction n as [|n IH]; intros s H; [reflexivity|].
  destruct s as [|a s]; [reflexivity|]. simpl in *.
  apply negb_true_iff in H. rewrite H.
  rewrite code_points_app, code_points_take_cont, IH by apply whole_start_skip_cont.
  rewrite code_points_skip_cont. reflexivity.
Qed.

Lemma following_not_cont a n : following a = Some n -> is_cont a = false.
Proof.
  destruct a as [b0 b1 b2 b3 b4 b5 [] []]; try reflexivity.
  destruct b3, b4, b5; discriminate.
Qed.

Lemma utf8_whole_start s : utf8 s = true -> whole_start s = true.
Proof.
  destruct s as [|a s]; [reflexivity|]. unfold utf8. simpl.
  destruct (following a) as [n|] eqn:E; [|discriminate].
  intros _. now rewrite (following_not_cont a n E).
Qed.

Lemma prefix_app p s : String.prefix p s = true -> exists rest, s = p ++ rest.
Proof.
  revert s. induction p as [|a p IH]; intros s H; [now exists s|].
  destruct s as [|b s]; simpl in H; [discriminate|].
  destruct (ascii_dec a b) as [->|]; [|discriminate].
  destruct (IH s H) as [rest ->]. now exists rest.
Qed.

Lemma prefix_app_true p rest : String.prefix p (p ++ rest) = true.
Proof.
  induction p as [|a p IH]; simpl; [now destruct rest|].
  destruct (ascii_dec a a); [exact IH | contradiction].
Qed.

(** A number with the prefix, taken apart. *)
Lemma prefix_split number :
  String.prefix "+91" number = true ->
  exists rest, number = "+91" ++ rest /\ (utf8 number = true -> utf8 rest = true).
Proof.
  intros H. destruct (prefix_app _ _ H) as [rest ->].
  exists rest. split; [reflexivity | intros U; exact U].
Qed.

Lemma format_phone_number_prefixed rest :
  whole_start rest = true ->
  format_phone_number ("+91" ++ rest) =
    "+91 " ++ py_upto 5 rest ++ " " ++ py_from 5 rest /\
  code_points (format_phone_number ("+91" ++ rest)) = code_points ("+91" ++ rest) + 2.
Proof.
  intros H.
  assert (E : format_phone_number ("+91" ++ rest) =
              "+91 " ++ py_upto 5 rest ++ " " ++ py_from 5 rest).
  { unfold format_phone_number.
    rewrite (prefix_app_true "+91" rest).
    change (py_from 3 ("+91" ++ rest)) with (skip_cont rest).
    now rewrite (skip_cont_whole rest H). }
  split; [exact E|]. rewrite E.
  rewrite <- (upto_from 5 rest) at 3.
  change ("+91 " ++ py_upto 5 rest ++ " " ++ py_from 5 rest)
    with ("+91 " ++ (py_upto 5 rest ++ String " " (py_from 5 rest))).
  rewrite !code_points_app. simpl code_points. lia.
Qed.

(** X19: [format_phone_number] returns a number without the prefix [+91]
    unchanged; on a number with the prefix it only inserts two spaces, one
    after the prefix and one after the next five characters, losing nothing;
    the result still has the prefix, so formatting it again inserts two
    spaces more. *)
Theorem format_phone_number_inserts_two_spaces :
  forall number,
    (String.prefix "+91" number = false -> format_phone_number number = number) /\
    (String.prefix "+91" number = true -> utf8 number = true ->
     exists a b,
       number = "+91" ++ a ++ b /\
       format_phone_number number = "+91 " ++ a ++ " " ++ b /\
       code_points a = Nat.min 5 (code_points number - 3) /\
       code_points (format_phone_number (format_phone_number number)) =
       code_points number + 4).
Proof.
  intros number. split.
  - intros H. unfold format_phone_number. now rewrite H.
  - intros H U.
    destruct (prefix_split number H) as (rest & -> & Hu).
    pose proof (utf8_whole_start rest (Hu U)) as W.
    destruct (format_phone_number_prefixed rest W) as (H1 & H2).
    exists (py_upto 5 rest), (py_from 5 rest). repeat split.
    + now rewrite upto_from.
    + exact H1.
    + rewrite (code_points_upto 5 rest W). f_equal. simpl. lia.
    + rewrite H1.
      change ("+91 " ++ py_upto 5 rest ++ " " ++ py_from 5 rest)
        with ("+91" ++ String " " (py_upto 5 rest ++ " " ++ py_from 5 rest)).
      rewrite (proj2 (format_phone_number_prefixed
                        (String " " (py_upto 5 rest ++ " " ++ py_from 5 rest))
                        eq_refl)).
      change ("+91" ++ String " " (py_upto 5 rest ++ " " ++ py_from 5 rest))
        with ("+91 " ++ py_upto 5 rest ++ " " ++ py_from 5 rest).
      rewrite <- H1, H2. lia.
Qed.

Lemma format_phone_number_inserts_two_spaces_witness :
  exists a b,
    "+919876543210" = "+91" ++ a ++ b /\
    format_phone_number "+919876543210" = "+91 " ++ a ++ " " ++ b /\
    code_points a = 5.
Proof.
  destruct (proj2 (format_phone_number_inserts_two_spaces "+919876543210")
              eq_refl eq_refl)
    as (a & b & H1 & H2 & H3 & _).
  exists a, b. repeat split; assumption.
Defined.

Lemma to_int_proper n :
  Z.to_int n <> Decimal.Pos Decimal.Nil /\ Z.to_int n <> Decimal.Neg Decimal.Nil.
Proof.
  destruct n as [|p|p]; simpl; split; try discriminate;
    intros [= H]; now apply DecimalPos.Unsigned.to_uint_nonnil in H.
Qed.

Lemma str_inj a b : str a = str b -> a = b.
Proof.
  unfold str. intros H. apply DecimalZ.to_int_inj.
  destruct (to_int_proper a) as [A1 A2]. destruct (to_int_proper b) as [B1 B2].
  pose proof (DecimalString.NilZero.isi (Z.to_int a) A1 A2) as Ia.
  pose proof (DecimalString.NilZero.isi (Z.to_int b) B1 B2) as Ib.
  rewrite H in Ia. congruence.
Qed.

Lemma no_char_cons c a s :
  no_char c (String a s) = negb (Ascii.eqb a c) && no_char c s.
Proof. reflexivity. Qed.

(** The decimal text of an integer has only digits and the minus sign. *)
Lemma str_no_char c n : no_char c "0123456789-" = true -> no_char c (str n) = true.
Proof.
  intros H. rewrite !no_char_cons in H.
  repeat (apply andb_true_iff in H; destruct H as [? H]).
  assert (U : forall d, no_char c (DecimalString.NilEmpty.string_of_uint d) = true).
  { induction d; cbn [DecimalString.NilEmpty.string_of_uint];
      [reflexivity | rewrite no_char_cons, IHd ..];
      match goal with
      | Hc : negb (Ascii.eqb ?x c) = true |- negb (Ascii.eqb ?x c) && true = true =>
          now rewrite Hc
      end. }
  assert (U0 : forall d, no_char c (DecimalString.NilZero.string_of_uint d) = true).
  { intros d. destruct d; try apply U.
    cbn [DecimalString.NilZero.string_of_uint]. rewrite !no_char_cons.
    match goal with
    | Hc : negb (Ascii.eqb "0" c) = true |- _ => now rewrite Hc
    end. }
  unfold str. destruct (Z.to_int n); cbn [DecimalString.NilZero.string_of_int];
    [apply U0|].
  rewrite no_char_cons, U0.
  match goal with
  | Hc : negb (Ascii.eqb "-" c) = true |- _ => now rewrite Hc
  end.
Qed.

Lemma no_char_sep c a b : no_char c (a ++ String c b) = false.
Proof.
  induction a as [|x a IH]; simpl.
  - now rewrite Ascii.eqb_refl.
  - rewrite IH. apply andb_false_r.
Qed.

(** Two texts cut at the first occurrence of a character agree part by part. *)
Lemma app_sep_inj c a a' b b' :
  no_char c a = true -> no_char c a' = true ->
  a ++ String c b = a' ++ String c b' -> a = a' /\ b = b'.
Proof.
  revert a'. induction a as [|x a IH]; intros [|x' a'] Ha Ha' E; simpl in *.
  - injection E as E. now split.
  - injection E as E1 E2. subst x'. rewrite Ascii.eqb_refl in Ha'. discriminate.
  - injection E as E1 E2. subst x. rewrite Ascii.eqb_refl in Ha. discriminate.
  - injection E as E1 E2. subst x'.
    apply andb_true_iff in Ha. apply andb_true_iff in Ha'.
    destruct (IH a' (proj2 Ha) (proj2 Ha') E2) as [-> ->]. now split.
Qed.

Lemma str_app_s_inj a b : str a ++ "s" = str b ++ "s" -> a = b.
Proof.
  intros E. apply str_inj.
  now destruct (app_sep_inj "s" (str a) (str b) "" ""
                  (str_no_char "s" a eq_refl) (str_no_char "s" b eq_refl) E).
Qed.

Lemma minutes_form m x : str m ++ "m " ++ str x ++ "s" = str m ++ String "m" (String " " (str x ++ "s")).
Proof. reflexivity. Qed.

(** X20: [format_duration] shows two different durations below one hour
    differently, negative ones included, while from one hour on it shows the
    hours and minutes only, so a duration and the same duration cut to the
    whole minute are shown alike. *)
Theorem format_duration_resolution :
  (forall a b, (a < 3600)%Z -> (b < 3600)%Z ->
               format_duration a = format_duration b -> a = b) /\
  (forall s, (3600 <= s)%Z ->
             format_duration s = format_duration (s - s mod 60)).
Proof.
  split.
  - intros a b Ha Hb. unfold format_duration.
    apply Z.ltb_lt in Ha, Hb. rewrite Ha, Hb.
    destruct (a <? 60)%Z eqn:Ea; destruct (b <? 60)%Z eqn:Eb; intros E.
    + now apply str_app_s_inj.
    + exfalso. rewrite minutes_form in E.
      apply (f_equal (no_char "m")) in E.
      rewrite no_char_sep, no_char_app, (str_no_char "m" a eq_refl) in E.
      discriminate.
    + exfalso. rewrite minutes_form in E.
      apply (f_equal (no_char "m")) in E.
      rewrite no_char_sep, no_char_app, (str_no_char "m" b eq_refl) in E.
      discriminate.
    + rewrite !minutes_form in E.
      destruct (app_sep_inj "m" _ _ _ _ (str_no_char "m" _ eq_refl)
                            (str_no_char "m" _ eq_refl) E) as [Em Ex].
      injection Ex as Ex. apply str_inj in Em. apply str_app_s_inj in Ex.
      rewrite (Z.div_mod a 60), (Z.div_mod b 60) by lia. now rewrite Em, Ex.
  - intros s Hs. unfold format_duration.
    assert (H1 : (s <? 60)%Z = false) by (apply Z.ltb_ge; lia).
    assert (H2 : (s <? 3600)%Z = false) by (apply Z.ltb_ge; lia).
    assert (H3 : (s - s mod 60 <? 60)%Z = false)
      by (apply Z.ltb_ge; Z.to_euclidean_division_equations; lia).
    assert (H4 : (s - s mod 60 <? 3600)%Z = false)
      by (apply Z.ltb_ge; Z.to_euclidean_division_equations; lia).
    rewrite H1, H2, H3, H4.
    assert (E1 : ((s - s mod 60) / 3600 = s / 3600)%Z)
      by (Z.to_euclidean_division_equations; lia).
    assert (E2 : (((s - s mod 60) mod 3600) / 60 = (s mod 3600) / 60)%Z)
      by (Z.to_euclidean_division_equations; lia).
    now rewrite E1, E2.
Qed.

Lemma format_duration_resolution_witness :
  format_duration 3725 = format_duration 3720 /\
  (format_duration 125 = format_duration 125 -> 125 = 125)%Z.
Proof.
  split.
  - refine (proj2 format_duration_resolution 3725%Z _). lia.
  - refine (proj1 format_duration_resolution 125%Z 125%Z _ _); lia.
Defined.
